(** * Appointment-booking server: working hours, durations, conflicts, search

    A shallow embedding of [backend/server.js].  The HTTP and SQLite layers are
    replaced by explicit state passing: a handler takes the clock reading and
    the current table and returns a response together with the new table.

    Modelling conventions.
    - A luxon [DateTime] in the fixed zone is an integer number of elapsed
      milliseconds, counted from 00:00 of a reference Monday in that zone.
      [plus] and [minus] of hours and minutes add elapsed time, as luxon does.
      The zone is taken to keep one offset, so that every local day is
      86400000 milliseconds long: the two days a year on which the offset
      changes are outside the model.
    - ISO strings produced by [toISO] are identified with the instant they
      denote: comparing two of them in SQL is comparing the instants.
    - A JSON object is a finite map from field names to scalar values; the
      [details] column, written with [JSON.stringify] and read back with
      [JSON.parse], is kept as that map.  Numbers are integers of at most
      2^53 - 1 in absolute value, which a number holds exactly and prints as
      their decimal digits.
    - A service type is a JSON string, in UTF-8.
    - Database calls succeed (the [err] branches are not modelled).
    - In a run of [serve] a handler runs to its end before the next request is
      handled.  Two handlers that interleave at an [await] are described for
      the explicit branch of [POST /book] only, by its two database calls
      [explicitQuery] and [explicitInsert]. *)

From Stdlib Require Import ZArith Lia Bool List Ascii String.
From stdpp Require Import base option list strings gmap sorting.

Local Open Scope Z_scope.

(** ** JavaScript values and string helpers *)

Inductive JsVal : Type :=
| JUndefined
| JNull
| JBool (b : bool)
| JNum (n : Z)
| JStr (s : string).

(** [ToBoolean], as used by [||] and [!]. *)
Definition truthy (v : JsVal) : bool :=
  match v with
  | JUndefined | JNull => false
  | JBool b => b
  | JNum n => negb (n =? 0)
  | JStr s => negb (String.eqb s EmptyString)
  end.

(** [a || b] *)
Definition jsOr (a b : JsVal) : JsVal := if truthy a then a else b.

Definition digitVal (c : ascii) : option Z :=
  let n := Z.of_nat (nat_of_ascii c) in
  if (48 <=? n) && (n <=? 57) then Some (n - 48) else None.

(** Longest prefix of decimal digits, read as a number; [None] when the prefix
    is empty. *)
Fixpoint readDigits (s : string) (acc : option Z) : option Z :=
  match s with
  | EmptyString => acc
  | String c rest =>
      match digitVal c with
      | Some d => readDigits rest (Some (from_option id 0 acc * 10 + d))
      | None => acc
      end
  end.

(** White space and line terminators outside ASCII, by their UTF-8 bytes:
    U+00A0, and U+1680, U+2000 to U+200A, U+2028, U+2029, U+202F, U+205F,
    U+3000, U+FEFF. *)
Definition wideSpace2 (a b : ascii) : bool :=
  ((nat_of_ascii a =? 194) && (nat_of_ascii b =? 160))%nat.

Definition wideSpace3 (a b c : ascii) : bool :=
  let x := nat_of_ascii a in
  let y := nat_of_ascii b in
  let z := nat_of_ascii c in
  (((x =? 225) && (y =? 154) && (z =? 128))
   || ((x =? 226) && (y =? 128)
       && (((128 <=? z) && (z <=? 138)) || (z =? 168) || (z =? 169) || (z =? 175)))
   || ((x =? 226) && (y =? 129) && (z =? 159))
   || ((x =? 227) && (y =? 128) && (z =? 128))
   || ((x =? 239) && (y =? 187) && (z =? 191)))%nat.

(** Leading white space removed, as [trim] and [parseInt] do. *)
Fixpoint trimStart (s : string) : string :=
  match s with
  | EmptyString => EmptyString
  | String a rest =>
      if Ascii.is_space a then trimStart rest
      else
        match rest with
        | EmptyString => s
        | String b rest2 =>
            if wideSpace2 a b then trimStart rest2
            else
              match rest2 with
              | EmptyString => s
              | String c rest3 => if wideSpace3 a b c then trimStart rest3 else s
              end
        end
  end.

(** The same on a string whose bytes are in reverse order. *)
Fixpoint trimStartRev (s : string) : string :=
  match s with
  | EmptyString => EmptyString
  | String a rest =>
      if Ascii.is_space a then trimStartRev rest
      else
        match rest with
        | EmptyString => s
        | String b rest2 =>
            if wideSpace2 b a then trimStartRev rest2
            else
              match rest2 with
              | EmptyString => s
              | String c rest3 => if wideSpace3 c b a then trimStartRev rest3 else s
              end
        end
  end.

Definition trimEnd (s : string) : string :=
  String.rev (trimStartRev (String.rev s)).

(** [String.prototype.trim] *)
Definition trim (s : string) : string := trimEnd (trimStart s).

Definition lowerAscii (c : ascii) : ascii :=
  let n := nat_of_ascii c in
  if ((65 <=? n) && (n <=? 90))%nat then ascii_of_nat (n + 32) else c.

(** [String.prototype.toLowerCase]: the letters A-Z are folded, and so are
    the two letters outside ASCII whose lower case has an ASCII letter: the
    Kelvin sign U+212A becomes k, and U+0130 becomes i followed by U+0307.
    Hebrew has no case.  Other cased letters are left as they are: neither
    they nor their lower case occur in a pattern the server compares with. *)
Fixpoint toLowerCase (s : string) : string :=
  match s with
  | EmptyString => EmptyString
  | String "226" (String "132" (String "170" rest)) => String "k" (toLowerCase rest)
  | String "196" (String "176" rest) =>
      String "i" (String "204" (String "135" (toLowerCase rest)))
  | String c rest => String (lowerAscii c) (toLowerCase rest)
  end.

(** [String.prototype.includes] *)
Fixpoint includes (s sub : string) : bool :=
  String.prefix sub s ||
  match s with
  | EmptyString => false
  | String _ rest => includes rest sub
  end.


(** [parseInt(v, 10)]; [None] stands for [NaN].  A number (an integer of at
    most [MAX_SAFE_INTEGER] in absolute value) prints as its decimal digits,
    a boolean, [null] and [undefined] print as words. *)
Definition parseInt (v : JsVal) : option Z :=
  match v with
  | JNum n => Some n
  | JStr s =>
      match trimStart s with
      | String "-" rest => Z.opp <$> readDigits rest None
      | String "+" rest => readDigits rest None
      | t => readDigits t None
      end
  | JUndefined | JNull | JBool _ => None
  end.

(** [x || 0] on the result of [parseInt]: [NaN] and [0] both give [0]. *)
Definition orZero (o : option Z) : Z := from_option id 0 o.

(** ** Request details *)

Abbreviation Details := (gmap string JsVal).

(** Property read [details.k]. *)
Definition field (details : Details) (k : string) : JsVal :=
  from_option id JUndefined (details !! k).

(** [parseInt(details.sodi || details.numS || 0, 10) || 0] *)
Definition numS (details : Details) : Z :=
  orZero (parseInt (jsOr (jsOr (field details "sodi") (field details "numS")) (JNum 0))).

(** [parseInt(details.anan || details.numA || 0, 10) || 0] *)
Definition numA (details : Details) : Z :=
  orZero (parseInt (jsOr (jsOr (field details "anan") (field details "numA")) (JNum 0))).

(** [(serviceType || '').toString().trim().toLowerCase()] *)
Definition normType (serviceType : string) : string :=
  toLowerCase (trim serviceType).

(** [st === 'kidud' || st.includes('kidud') || st.includes('קידוד')] on a
    normalised type. *)
Definition isKidud (st : string) : bool :=
  String.eqb st "kidud" || includes st "kidud" || includes st "קידוד".

(** ** Durations *)

Definition dq : string := String (ascii_of_nat 34) EmptyString.

(** The [map] object of [computeDuration], keys in insertion order. *)
Definition durationMap : list (string * Z) :=
  [ ("אישור הוצל" +:+ dq +:+ "א", 15);
    ("השחרה", 15);
    ("טיולים יוצא", 5);
    ("טופס טיולים - יוצא", 5);
    ("חו" +:+ dq +:+ "ל", 5);
    ("טופס חו" +:+ dq +:+ "ל", 5);
    ("אישור כניסה קבוע", 5);
    ("hotzla", 15);
    ("hashchara", 15);
    ("tiulim-out", 5);
    ("chul", 5) ].

(** What [computeDuration] can return: a number of minutes, or a value that
    is not a number (a function or an object). *)
Inductive Duration : Type :=
| Minutes (n : Z)
| NotANumber.

(** The names every object literal inherits from [Object.prototype]; each
    holds a function, and [__proto__] the prototype object. *)
Definition OBJECT_PROTOTYPE_KEYS : list string :=
  [ "constructor"; "__defineGetter__"; "__defineSetter__"; "hasOwnProperty";
    "__lookupGetter__"; "__lookupSetter__"; "isPrototypeOf"; "propertyIsEnumerable";
    "toString"; "valueOf"; "__proto__"; "toLocaleString" ].

Definition inheritedKey (k : string) : bool :=
  existsb (String.eqb k) OBJECT_PROTOTYPE_KEYS.

(** The keys the object owns. *)
Fixpoint ownGet (m : list (string * Z)) (k : string) : option Z :=
  match m with
  | [] => None
  | (k', v) :: rest => if String.eqb k' k then Some v else ownGet rest k
  end.

(** [map[k]]: the value of an own key, else the value inherited under that
    name, else [undefined] ([None]). *)
Definition mapGet (m : list (string * Z)) (k : string) : option Duration :=
  match ownGet m k with
  | Some v => Some (Minutes v)
  | None => if inheritedKey k then Some NotANumber else None
  end.

(** [for (const k of Object.keys(map)) if (k.toLowerCase() === low) return map[k]] *)
Fixpoint mapScan (m : list (string * Z)) (low : string) : option Z :=
  match m with
  | [] => None
  | (k, v) :: rest =>
      if String.eqb (toLowerCase k) low then Some v else mapScan rest low
  end.

(** [for (const k of Object.keys(map)) ...; return 5] *)
Definition scanOrDefault (low : string) : Duration :=
  match mapScan durationMap low with
  | Some v => Minutes v
  | None => Minutes 5
  end.

Definition computeDuration (serviceType : string) (details : Details) : Duration :=
  let st := normType serviceType in
  if isKidud st then
    let sMinutes := numS details * 10 in
    let aMinutes := numA details * 10 in
    let maxMinutes := Z.max sMinutes aMinutes in
    Minutes (Z.max maxMinutes 10)
  else
    match mapGet durationMap serviceType with
    | Some (Minutes v) => if v =? 0 then scanOrDefault st else Minutes v
    | Some NotANumber => NotANumber
    | None => scanOrDefault st
    end.

(** ** Working calendar *)

Definition MS_PER_MIN : Z := 60000.
Definition MS_PER_HOUR : Z := 60 * MS_PER_MIN.
Definition MS_PER_DAY : Z := 24 * MS_PER_HOUR.

(** [dt.plus({ hours: h, minutes: m })] *)
Definition plusHM (dt h m : Z) : Z := dt + h * MS_PER_HOUR + m * MS_PER_MIN.

(** [dt.plus({ minutes: m })] and [dt.minus({ minutes: m })] *)
Definition plusMinutes (dt m : Z) : Z := dt + m * MS_PER_MIN.
Definition minusMinutes (dt m : Z) : Z := dt - m * MS_PER_MIN.

(** [dt.plus({ minutes: duration })] with what [computeDuration] returned:
    luxon throws on a value that is not a number ([None]). *)
Definition plusDuration (dt : Z) (duration : Duration) : option Z :=
  match duration with
  | Minutes m => Some (plusMinutes dt m)
  | NotANumber => None
  end.

(** [dt.plus({ days: d })] *)
Definition plusDays (dt d : Z) : Z := dt + d * MS_PER_DAY.

(** [dt.startOf('day')] *)
Definition startOfDay (dt : Z) : Z := dt - dt mod MS_PER_DAY.

(** [a.hasSame(b, 'day')] *)
Definition hasSameDay (a b : Z) : bool := startOfDay a =? startOfDay b.

(** [dt.weekday]: 1 is Monday, 7 is Sunday. *)
Definition weekday (dt : Z) : Z := (dt / MS_PER_DAY) mod 7 + 1.

(** [[5, 6].includes(dt.weekday)] *)
Definition isWeekend (dt : Z) : bool := (weekday dt =? 5) || (weekday dt =? 6).

(** A working block, with ['HH:MM'.split(':').map(Number)] already applied. *)
Record Block : Type := mkBlock { bsH : Z; bsM : Z; beH : Z; beM : Z }.

Definition WORKING_BLOCKS : list Block :=
  [ mkBlock 8 30 11 30; mkBlock 16 30 18 30; mkBlock 20 30 22 0 ].

Definition SLOT_STEP_MIN : Z := 5.

Record Slot : Type := mkSlot { start : Z; blockEnd : Z }.

(** The [while (current <= blockEnd.minus({ minutes: 1 }))] loop, with a bound
    on the number of iterations. *)
Fixpoint slotLoop (fuel : nat) (current blkEnd : Z) : list Slot :=
  match fuel with
  | O => []
  | S fuel' =>
      if current <=? minusMinutes blkEnd 1
      then mkSlot current blkEnd :: slotLoop fuel' (plusMinutes current SLOT_STEP_MIN) blkEnd
      else []
  end.

(** Iterations the loop of one block can need: one per step between the two
    ends, and one more. *)
Definition slotFuel (current blkEnd : Z) : nat :=
  Z.to_nat ((blkEnd - current) / (SLOT_STEP_MIN * MS_PER_MIN) + 1).

Definition blockSlots (dayDateTime : Z) (blk : Block) : list Slot :=
  let current := plusHM dayDateTime (bsH blk) (bsM blk) in
  let blkEnd := plusHM dayDateTime (beH blk) (beM blk) in
  slotLoop (slotFuel current blkEnd) current blkEnd.

Definition generateSlotsIn (blocks : list Block) (dayDateTime : Z) : list Slot :=
  flat_map (blockSlots dayDateTime) blocks.

Definition generateSlotsForDay (dayDateTime : Z) : list Slot :=
  generateSlotsIn WORKING_BLOCKS dayDateTime.

Definition fitsBlock (day startDT endDT : Z) (blk : Block) : bool :=
  let blkStart := plusHM day (bsH blk) (bsM blk) in
  let blkEnd := plusHM day (beH blk) (beM blk) in
  (blkStart <=? startDT) && (endDT <=? blkEnd).

Definition fitsWithinBlock (startDT endDT : Z) : bool :=
  let day := startOfDay startDT in
  existsb (fitsBlock day startDT endDT) WORKING_BLOCKS.

(** ** The appointments table *)

Record Row : Type := mkRow {
  row_id : Z;
  row_serviceType : string;
  row_details : Details;
  row_startTime : Z;
  row_endTime : Z;
  row_created_at : Z;
  row_phone : option string;
  row_done : bool
}.

(** Rows in insertion order, and the last id that [AUTOINCREMENT] handed out. *)
Record Store : Type := mkStore { rows : list Row; lastID : Z }.

Definition emptyStore : Store := mkStore [] 0.

(** [INSERT INTO appointments (...) VALUES (?,?,?,?,?,?,?)] *)
Definition insertRow (db : Store) (serviceType : string) (details : Details)
    (startTime endTime created_at : Z) (phone : option string) (done : bool) : Store :=
  let id := lastID db + 1 in
  mkStore (rows db ++ [mkRow id serviceType details startTime endTime created_at phone done]) id.

(** [WHERE NOT (endTime <= ? OR startTime >= ?)] *)
Definition overlaps (startISO endISO : Z) (r : Row) : bool :=
  negb ((row_endTime r <=? startISO) || (row_startTime r >=? endISO)).

Definition selectOverlapping (db : Store) (startISO endISO : Z) : list Row :=
  List.filter (overlaps startISO endISO) (rows db).

(** ** Conflict check *)

Record Verdict : Type := mkVerdict { ok : bool; message : option string }.

Definition MSG_TWO_OVERLAP : string := "במועד זה כבר קיימים שני תורים חופפים".
Definition MSG_SODI : string := "לא ניתן לקבוע שני קידודים על אותה רשת סודי/סודי ביותר באותו זמן".
Definition MSG_ANAN : string := "לא ניתן לקבוע שני קידודים על אותה רשת ענן באותו זמן".

(** The [for (const r of rows)] loop of the kidud branch; [Some m] is an early
    [resolve({ ok: false, message: m })]. *)
Fixpoint kidudLoop (newS newA : Z) (rs : list Row) : option string :=
  match rs with
  | [] => None
  | r :: rest =>
      if isKidud (normType (row_serviceType r)) then
        let rS := numS (row_details r) in
        let rA := numA (row_details r) in
        if (0 <? newS) && (0 <? rS) then Some MSG_SODI
        else if (0 <? newA) && (0 <? rA) then Some MSG_ANAN
        else kidudLoop newS newA rest
      else kidudLoop newS newA rest
  end.

Definition checkConflicts (db : Store) (startISO endISO : Z)
    (serviceType : string) (details : Details) : Verdict :=
  let found := selectOverlapping db startISO endISO in
  if (2 <=? length found)%nat then mkVerdict false (Some MSG_TWO_OVERLAP)
  else
    if isKidud (normType serviceType) then
      match kidudLoop (numS details) (numA details) found with
      | Some m => mkVerdict false (Some m)
      | None => mkVerdict true None
      end
    else mkVerdict true None.

(** ** Forward search *)

(** How a piece of code that can throw ends. *)
Inductive Outcome (A : Type) : Type :=
| Returned (a : A)
| Thrown.

Arguments Returned {A} a.
Arguments Thrown {A}.

(** The inner [for (const s of slots)] loop of [findNextAvailableSlot]. *)
Fixpoint slotSearch (db : Store) (serviceType : string) (details : Details)
    (durationMin : Duration) (now : Z) (slots : list Slot) : Outcome (option (Z * Z)) :=
  match slots with
  | [] => Returned None
  | s :: rest =>
      let st := start s in
      if (st <? now) && hasSameDay st now
      then slotSearch db serviceType details durationMin now rest
      else
        match plusDuration st durationMin with
        | None => Thrown
        | Some en =>
            if negb (fitsWithinBlock st en)
            then slotSearch db serviceType details durationMin now rest
            else if ok (checkConflicts db st en serviceType details)
            then Returned (Some (st, en))
            else slotSearch db serviceType details durationMin now rest
        end
  end.

(** The outer [for (let dayOffset = 0; dayOffset <= maxDays; dayOffset++)]
    loop; [n] counts the iterations that remain and [day] is the value of the
    variable on entry to the body. *)
Fixpoint dayLoop (db : Store) (serviceType : string) (details : Details)
    (durationMin : Duration) (now : Z) (sameDayOnly : bool) (n : nat) (dayOffset day : Z)
    : Outcome (option (Z * Z)) :=
  match n with
  | O => Returned None
  | S n' =>
      let day' := if 0 <? dayOffset then plusDays day 1 else day in
      if sameDayOnly && (0 <? dayOffset) then Returned None
      else if isWeekend day'
      then dayLoop db serviceType details durationMin now sameDayOnly n' (dayOffset + 1) day'
      else
        match slotSearch db serviceType details durationMin now (generateSlotsForDay day') with
        | Thrown => Thrown
        | Returned (Some r) => Returned (Some r)
        | Returned None =>
            dayLoop db serviceType details durationMin now sameDayOnly n' (dayOffset + 1) day'
        end
  end.

(** [findNextAvailableSlot]; [now] is the clock reading taken inside it. *)
Definition findNextAvailableSlot (db : Store) (now : Z) (serviceType : string)
    (details : Details) (fromDT : Z) (sameDayOnly : bool) (maxDays : Z)
    : Outcome (option (Z * Z)) :=
  let durationMin := computeDuration serviceType details in
  dayLoop db serviceType details durationMin now sameDayOnly
    (Z.to_nat (maxDays + 1)) 0 (startOfDay fromDT).

(** ** Request handlers *)

(** A time parameter of a request: absent (or empty), present but rejected by
    [DateTime.fromISO], or present and denoting an instant. *)
Inductive TimeParam : Type :=
| Absent
| Malformed
| At (t : Z).

Record BookRequest : Type := mkBookRequest {
  req_serviceType : string;
  req_startTime : TimeParam;
  req_details : Details;
  req_phone : option string;
  req_done : bool
}.

Inductive Response : Type :=
| BadRequest (msg : string)                (* status 400 *)
| Conflict (msg : option string)           (* status 409 *)
| ServerError (msg : string)               (* status 500 *)
| Booked (msg : string) (id startTime endTime : Z).   (* status 200 *)

Definition MSG_NO_TYPE : string := "חסר serviceType".
Definition MSG_BAD_START : string := "פורמט startTime שגוי".
Definition MSG_NOT_IN_BLOCK : string :=
  "הזמן שנבחר אינו בטווח שעות העבודה או אינו נכנס במסגרת בלוק עבודה".
Definition MSG_BOOKED : string := "הפגישה נקבעה בהצלחה".
Definition MSG_ASSIGNED : string := "הפגישה הוקצתה בהצלחה".
Definition MSG_NO_AVAILABILITY : string := "אין זמינות בשבועות הקרובים".
Definition MSG_INTERNAL : string := "שגיאת שרת פנימית".
Definition MSG_MISSING_DATE : string := "missing date".
Definition MSG_BAD_DATE : string := "פורמט תאריך שגוי".

Definition SAME_DAY_LABEL : string := "אישור כניסה קבוע".

(** [phone || null]: an absent or empty phone is stored as [NULL]. *)
Definition phoneOrNull (phone : option string) : option string :=
  match phone with
  | Some p => if String.eqb p EmptyString then None else Some p
  | None => None
  end.

(** [POST /book].  Every clock reading of one request returns [now]; what is
    thrown inside the [try] is answered by the [catch]. *)
Definition postBook (now : Z) (db : Store) (req : BookRequest) : Response * Store :=
  let serviceType := req_serviceType req in
  if String.eqb serviceType EmptyString then (BadRequest MSG_NO_TYPE, db)
  else
    let details := req_details req in
    let duration := computeDuration serviceType details in
    let stLower := normType serviceType in
    let sameDayOnly :=
      includes stLower SAME_DAY_LABEL || String.eqb stLower SAME_DAY_LABEL
      || includes stLower (toLowerCase SAME_DAY_LABEL) in
    match req_startTime req with
    | Malformed => (BadRequest MSG_BAD_START, db)
    | At st =>
        match plusDuration st duration with
        | None => (ServerError MSG_INTERNAL, db)
        | Some en =>
            if negb (fitsWithinBlock st en) then (BadRequest MSG_NOT_IN_BLOCK, db)
            else
              let conflict := checkConflicts db st en serviceType details in
              if negb (ok conflict) then (Conflict (message conflict), db)
              else
                let db' := insertRow db serviceType details st en now
                             (phoneOrNull (req_phone req)) (req_done req) in
                (Booked MSG_BOOKED (lastID db') st en, db')
        end
    | Absent =>
        match findNextAvailableSlot db now serviceType details now sameDayOnly 30 with
        | Thrown => (ServerError MSG_INTERNAL, db)
        | Returned None => (Conflict (Some MSG_NO_AVAILABILITY), db)
        | Returned (Some (st, en)) =>
            let db' := insertRow db serviceType details st en now
                         (phoneOrNull (req_phone req)) (req_done req) in
            (Booked MSG_ASSIGNED (lastID db') st en, db')
        end
    end.

Inductive AvailabilityResponse : Type :=
| AvailabilityError (msg : string)         (* status 400 *)
| Available (available : list Z)           (* status 200 *)
| NoAnswer.                                (* the un-awaited block threw: nothing is sent *)

(** The [for (const s of slots)] loop of [GET /availability]. *)
Fixpoint availableLoop (db : Store) (serviceType : string) (details : Details)
    (duration : Duration) (now : Z) (slots : list Slot) : Outcome (list Z) :=
  match slots with
  | [] => Returned []
  | s :: rest =>
      let st := start s in
      if (st <? now) && hasSameDay st now
      then availableLoop db serviceType details duration now rest
      else
        match plusDuration st duration with
        | None => Thrown
        | Some en =>
            if negb (fitsWithinBlock st en)
            then availableLoop db serviceType details duration now rest
            else if ok (checkConflicts db st en serviceType details)
            then
              match availableLoop db serviceType details duration now rest with
              | Returned tail => Returned (st :: tail)
              | Thrown => Thrown
              end
            else availableLoop db serviceType details duration now rest
        end
  end.

(** [GET /availability]; it never writes to the table. *)
Definition getAvailability (now : Z) (db : Store) (date : TimeParam)
    (serviceType : string) (details : Details) : AvailabilityResponse :=
  match date with
  | Absent => AvailabilityError MSG_MISSING_DATE
  | Malformed => AvailabilityError MSG_BAD_DATE
  | At t =>
      let duration := computeDuration serviceType details in
      let dayStart := startOfDay t in
      if isWeekend dayStart then Available []
      else
        match availableLoop db serviceType details duration now
                (generateSlotsForDay dayStart) with
        | Returned available => Available available
        | Thrown => NoAnswer
        end
  end.

(** ** Reading aids for the statements below

    None of these is called by the server; they name notions of the
    specification so that the theorems can speak about them. *)

(** A candidate start passes the three filters shared by the search and by the
    availability listing: not earlier today than [now], inside a block, and
    accepted by the conflict check. *)
Definition admissible (db : Store) (serviceType : string) (details : Details)
    (durationMin now st : Z) : bool :=
  negb ((st <? now) && hasSameDay st now)
  && fitsWithinBlock st (plusMinutes st durationMin)
  && ok (checkConflicts db st (plusMinutes st durationMin) serviceType details).

(** Rules 2 and 3 of the conflict checker, as the specification words them:
    the candidate is a coded entry and some overlapping booking is a coded
    entry with a positive count in the same category. *)
Definition codedEntryClash (db : Store) (startISO endISO : Z)
    (serviceType : string) (details : Details) : bool :=
  isKidud (normType serviceType)
  && existsb (fun r =>
       isKidud (normType (row_serviceType r))
       && ((0 <? numS details) && (0 <? numS (row_details r))
           || (0 <? numA details) && (0 <? numA (row_details r))))
     (selectOverlapping db startISO endISO).

(** The calendar days the specification lets the search look at: those
    starting at the day of [fromDT], at most [maxDays + 1] of them, and only
    the first when [sameDayOnly]. *)
Definition horizonDays (fromDT : Z) (sameDayOnly : bool) (maxDays : Z) : list Z :=
  let all := map (fun i => plusDays (startOfDay fromDT) (Z.of_nat i))
                 (seq 0 (Z.to_nat (maxDays + 1))) in
  if sameDayOnly then take 1 all else all.

(** Candidate starts of a list of days, weekend days left out, in the order
    the search meets them. *)
Definition candidates (days : list Z) : list Z :=
  flat_map (fun day => map start (generateSlotsForDay day))
           (List.filter (fun day => negb (isWeekend day)) days).

(** The search as the specification describes it, for a duration of
    [durationMin] minutes: the first admissible candidate of the horizon, or
    nothing. *)
Definition specSearch (db : Store) (now : Z) (serviceType : string)
    (details : Details) (durationMin : Z) (fromDT : Z) (sameDayOnly : bool) (maxDays : Z)
    : option (Z * Z) :=
  (fun st => (st, plusMinutes st durationMin)) <$>
    find (admissible db serviceType details durationMin now)
         (candidates (horizonDays fromDT sameDayOnly maxDays)).

(** A candidate start is not passed over for being earlier today than [now]:
    the loops reach the computation of its end. *)
Definition reached (now st : Z) : bool := negb ((st <? now) && hasSameDay st now).

(** Two rows that differ at most in their [done] flag. *)
Definition sameButDone (r r' : Row) : Prop :=
  row_id r = row_id r' /\ row_serviceType r = row_serviceType r'
  /\ row_details r = row_details r' /\ row_startTime r = row_startTime r'
  /\ row_endTime r = row_endTime r' /\ row_created_at r = row_created_at r'
  /\ row_phone r = row_phone r'.

(** Moving a slot, a row or a table by [k] milliseconds. *)
Definition shiftSlot (k : Z) (s : Slot) : Slot := mkSlot (start s + k) (blockEnd s + k).

Definition shiftRow (k : Z) (r : Row) : Row :=
  mkRow (row_id r) (row_serviceType r) (row_details r) (row_startTime r + k)
        (row_endTime r + k) (row_created_at r + k) (row_phone r) (row_done r).

Definition shiftStore (k : Z) (db : Store) : Store :=
  mkStore (map (shiftRow k) (rows db)) (lastID db).

(** ** The remaining endpoints *)

(** [DELETE /book/:id]: the statement runs and the answer is a success whether
    or not a row had that id.  [id] is the number SQLite reads the path
    parameter as.  [AUTOINCREMENT] keeps its counter, so [lastID] stays. *)
Definition MSG_CANCELLED : string := "הפגישה בוטלה בהצלחה".

Definition deleteBook (db : Store) (id : Z) : string * Store :=
  (MSG_CANCELLED,
   mkStore (List.filter (fun r => negb (row_id r =? id)) (rows db)) (lastID db)).

(** [ORDER BY startTime ASC], as a stable insertion sort: rows with the same
    start keep their table order. *)
Fixpoint insertByStart (r : Row) (l : list Row) : list Row :=
  match l with
  | [] => [r]
  | x :: rest =>
      if row_startTime r <=? row_startTime x then r :: l
      else x :: insertByStart r rest
  end.

Definition orderByStart (l : list Row) : list Row := fold_right insertByStart [] l.

(** [GET /book]: every row, ordered by start; the fields of the answer are
    those of the row. *)
Definition getBook (db : Store) : list Row := orderByStart (rows db).

(** A run of the server in which the requests that can change the table are
    handled one at a time, each to its end before the next begins. *)
Inductive Request : Type :=
| ReqBook (now : Z) (req : BookRequest)
| ReqDelete (id : Z).

Definition handle (db : Store) (r : Request) : Store :=
  match r with
  | ReqBook now req => snd (postBook now db req)
  | ReqDelete id => snd (deleteBook db id)
  end.

Definition serve (reqs : list Request) (db : Store) : Store := fold_left handle reqs db.

(** The explicit branch of [POST /book] talks to the database twice: the
    query of [checkConflicts], which it awaits, and the INSERT.  A second
    handler can run between the two.  [explicitQuery] is the branch up to the
    answer of the query: the interval it goes on to insert, or nothing when
    the request is answered with a refusal or an error. *)
Definition explicitQuery (db : Store) (req : BookRequest) : option (Z * Z) :=
  if String.eqb (req_serviceType req) EmptyString then None
  else
    match req_startTime req with
    | At st =>
        match plusDuration st (computeDuration (req_serviceType req) (req_details req)) with
        | Some en =>
            if negb (fitsWithinBlock st en) then None
            else if negb (ok (checkConflicts db st en (req_serviceType req) (req_details req)))
            then None
            else Some (st, en)
        | None => None
        end
    | Absent | Malformed => None
    end.

(** The branch after the [await]: the INSERT, into the table as it is by
    then. *)
Definition explicitInsert (now : Z) (db : Store) (req : BookRequest) (slot : Z * Z) : Store :=
  insertRow db (req_serviceType req) (req_details req) (fst slot) (snd slot) now
    (phoneOrNull (req_phone req)) (req_done req).

(** A stored booking covers the instant [t]. *)
Definition covers (t : Z) (r : Row) : bool :=
  (row_startTime r <=? t) && (t <? row_endTime r).

(** Two stored bookings are coded entries that overlap in time and both count
    a positive number of units of the same category. *)
Definition rowsClash (r1 r2 : Row) : Prop :=
  isKidud (normType (row_serviceType r1)) = true
  /\ isKidud (normType (row_serviceType r2)) = true
  /\ row_startTime r1 < row_endTime r2 /\ row_startTime r2 < row_endTime r1
  /\ ((0 < numS (row_details r1) /\ 0 < numS (row_details r2))
      \/ (0 < numA (row_details r1) /\ 0 < numA (row_details r2))).

(** ** The booking form of the front end *)

(** What [collectDetails] reads of an [input], [select] or [textarea]. *)
Record FormElement : Type := mkElement {
  el_name : string;
  el_type : string;
  el_value : string;
  el_checked : bool
}.

(** The body of the [forEach] of [collectDetails].  The three assignments
    store a boolean, a number or a string; under the name [__proto__] such an
    assignment creates no field. *)
Definition collectStep (data : Details) (el : FormElement) : Details :=
  if String.eqb (el_name el) EmptyString || String.eqb (el_name el) "date"
     || String.eqb (el_name el) "time"
  then data
  else if String.eqb (el_name el) "__proto__" then data
  else if String.eqb (el_type el) "checkbox" then <[el_name el := JBool (el_checked el)]> data
  else if String.eqb (el_type el) "number"
  then <[el_name el := JNum (orZero (parseInt (JStr (el_value el))))]> data
  else <[el_name el := JStr (el_value el)]> data.

(** [collectDetails(form)], on the elements in document order. *)
Definition collectDetails (form : list FormElement) : Details :=
  fold_left collectStep form ∅.

(** The value [collectDetails] stores for an element, by the type of the
    element (a reading aid for the statements about the form). *)
Definition elementValue (el : FormElement) : JsVal :=
  if String.eqb (el_type el) "checkbox" then JBool (el_checked el)
  else if String.eqb (el_type el) "number"
  then JNum (orZero (parseInt (JStr (el_value el))))
  else JStr (el_value el).

(** The names under which [collectDetails] leaves no field: those it passes
    over, and [__proto__]. *)
Definition skippedName (k : string) : bool :=
  String.eqb k EmptyString || String.eqb k "date" || String.eqb k "time"
  || String.eqb k "__proto__".

(** ** Sample data

    Monday and Friday of the reference week, a five-minute request at 08:30 on
    that Monday, and two coded entries, one counting primary units and one
    counting secondary units. *)

Definition MON : Z := 0.
Definition FRI : Z := plusDays MON 4.
Definition exNow : Z := plusHM MON 8 0.

Definition exReq : BookRequest :=
  mkBookRequest "chul" (At (plusHM MON 8 30)) ∅ None false.

Definition exDb1 : Store := snd (postBook exNow emptyStore exReq).
Definition exDb2 : Store := snd (postBook exNow exDb1 exReq).




(** ** Arithmetic of the calendar *)

Lemma MS_PER_DAY_val : MS_PER_DAY = 86400000.
Proof. reflexivity. Qed.

Lemma startOfDay_shift (k t : Z) :
  k mod MS_PER_DAY = 0 -> startOfDay (t + k) = startOfDay t + k.
Proof.
  intros Hk. unfold startOfDay.
  apply Z.mod_divide in Hk; [|rewrite MS_PER_DAY_val; lia].
  destruct Hk as [q ->]. rewrite Z.mod_add by (rewrite MS_PER_DAY_val; lia). lia.
Qed.

Lemma startOfDay_offset (day off : Z) :
  day mod MS_PER_DAY = 0 -> 0 <= off < MS_PER_DAY -> startOfDay (day + off) = day.
Proof.
  intros Hd Ho. rewrite Z.add_comm, startOfDay_shift by done.
  unfold startOfDay. rewrite Z.mod_small by done. lia.
Qed.

Lemma startOfDay_mod (t : Z) : startOfDay t mod MS_PER_DAY = 0.
Proof.
  unfold startOfDay. rewrite MS_PER_DAY_val.
  pose proof (Z.div_mod t 86400000 ltac:(lia)) as H.
  replace (t - t mod 86400000) with (t `div` 86400000 * 86400000) by lia.
  apply Z.mod_mul. lia.
Qed.

Lemma startOfDay_le (t : Z) : startOfDay t <= t < startOfDay t + MS_PER_DAY.
Proof.
  unfold startOfDay. rewrite MS_PER_DAY_val.
  pose proof (Z.mod_pos_bound t 86400000 ltac:(lia)). lia.
Qed.

Lemma startOfDay_idem (t : Z) : startOfDay (startOfDay t) = startOfDay t.
Proof.
  unfold startOfDay at 1. rewrite startOfDay_mod. lia.
Qed.

Lemma weekday_startOfDay (t : Z) : weekday (startOfDay t) = weekday t.
Proof.
  unfold weekday. f_equal. f_equal.
  pose proof (startOfDay_le t) as H. pose proof (startOfDay_mod t) as Hm.
  apply Z.mod_divide in Hm; [|rewrite MS_PER_DAY_val; lia].
  destruct Hm as [q Hq]. rewrite Hq in *. rewrite MS_PER_DAY_val in *.
  rewrite Z.div_mul by lia.
  apply Z.div_unique with (r := t - q * 86400000); lia.
Qed.

Lemma isWeekend_startOfDay (t : Z) : isWeekend (startOfDay t) = isWeekend t.
Proof. unfold isWeekend. by rewrite weekday_startOfDay. Qed.

Lemma plusDays_mod (day i : Z) :
  day mod MS_PER_DAY = 0 -> plusDays day i mod MS_PER_DAY = 0.
Proof.
  intros H. unfold plusDays. rewrite Z.mod_add by (rewrite MS_PER_DAY_val; lia). done.
Qed.

(** ** Durations of coded entries *)







Lemma computeDuration_kidud (serviceType : string) (details : Details) :
  isKidud (normType serviceType) = true ->
  computeDuration serviceType details
  = Minutes (Z.max (Z.max (numS details * 10) (numA details * 10)) 10).
Proof. intros H. unfold computeDuration. by rewrite H. Qed.

Lemma computeDuration_kidud_ge (serviceType : string) (details : Details) (m : Z) :
  isKidud (normType serviceType) = true ->
  computeDuration serviceType details = Minutes m -> 10 <= m.
Proof. intros H. rewrite computeDuration_kidud by done. intros [= <-]. lia. Qed.



(** ** The conflict check *)

Lemma overlaps_spec (s e : Z) (r : Row) :
  overlaps s e r = true <-> s < row_endTime r /\ row_startTime r < e.
Proof.
  unfold overlaps. rewrite negb_true_iff, orb_false_iff, Z.geb_leb, !Z.leb_gt. lia.
Qed.

Lemma kidudLoop_None (newS newA : Z) (rs : list Row) :
  kidudLoop newS newA rs = None
  <-> existsb (fun r =>
        isKidud (normType (row_serviceType r))
        && ((0 <? newS) && (0 <? numS (row_details r))
            || (0 <? newA) && (0 <? numA (row_details r)))) rs = false.
Proof.
  induction rs as [|r rs IH]; simpl; [done|].
  destruct (isKidud (normType (row_serviceType r))); simpl; [|exact IH].
  destruct ((0 <? newS) && (0 <? numS (row_details r))); simpl; [done|].
  destruct ((0 <? newA) && (0 <? numA (row_details r))); simpl; [done|].
  exact IH.
Qed.

Lemma checkConflicts_ok (db : Store) (s e : Z) (serviceType : string) (details : Details) :
  ok (checkConflicts db s e serviceType details)
  = (length (selectOverlapping db s e) <? 2)%nat
    && negb (codedEntryClash db s e serviceType details).
Proof.
  unfold checkConflicts, codedEntryClash.
  destruct (2 <=? length (selectOverlapping db s e))%nat eqn:Hlen.
  - apply Nat.leb_le in Hlen.
    assert ((length (selectOverlapping db s e) <? 2)%nat = false) as ->
      by (apply Nat.ltb_ge; lia).
    done.
  - apply Nat.leb_gt in Hlen.
    assert ((length (selectOverlapping db s e) <? 2)%nat = true) as ->
      by (apply Nat.ltb_lt; lia).
    destruct (isKidud (normType serviceType)); simpl; [|done].
    destruct (kidudLoop (numS details) (numA details) (selectOverlapping db s e)) eqn:Hk.
    + destruct (existsb _ (selectOverlapping db s e)) eqn:Hex; [done|].
      apply kidudLoop_None in Hex. congruence.
    + apply kidudLoop_None in Hk. by rewrite Hk.
Qed.

Lemma checkConflicts_two (db : Store) (s e : Z) (serviceType : string) (details : Details) :
  (2 <= length (selectOverlapping db s e))%nat ->
  checkConflicts db s e serviceType details = mkVerdict false (Some MSG_TWO_OVERLAP).
Proof.
  intros H. unfold checkConflicts.
  by assert ((2 <=? length (selectOverlapping db s e))%nat = true) as ->
    by (by apply Nat.leb_le).
Qed.

Lemma checkConflicts_empty (s e : Z) (serviceType : string) (details : Details) :
  checkConflicts emptyStore s e serviceType details = mkVerdict true None.
Proof. unfold checkConflicts. simpl. by destruct (isKidud _). Qed.

Lemma checkConflicts_nonKidud (db : Store) (s e : Z) (serviceType : string) (details : Details) :
  isKidud (normType serviceType) = false ->
  ok (checkConflicts db s e serviceType details)
  = (length (selectOverlapping db s e) <? 2)%nat.
Proof.
  intros H. rewrite checkConflicts_ok. unfold codedEntryClash. rewrite H. simpl.
  apply andb_true_r.
Qed.

Lemma selectOverlapping_insert (db : Store) (s e : Z) st d s' e' c p dn :
  selectOverlapping (insertRow db st d s' e' c p dn) s e
  = selectOverlapping db s e
    ++ (if overlaps s e (mkRow (lastID db + 1) st d s' e' c p dn)
        then [mkRow (lastID db + 1) st d s' e' c p dn] else []).
Proof. unfold selectOverlapping, insertRow. simpl. by rewrite List.filter_app. Qed.

Lemma postBook_explicit (now : Z) (db : Store) (req : BookRequest) (t duration : Z) :
  req_serviceType req <> EmptyString ->
  req_startTime req = At t ->
  computeDuration (req_serviceType req) (req_details req) = Minutes duration ->
  let en := plusMinutes t duration in
  postBook now db req =
    if negb (fitsWithinBlock t en) then (BadRequest MSG_NOT_IN_BLOCK, db)
    else
      let conflict := checkConflicts db t en (req_serviceType req) (req_details req) in
      if negb (ok conflict) then (Conflict (message conflict), db)
      else
        let db' := insertRow db (req_serviceType req) (req_details req) t en now
                     (phoneOrNull (req_phone req)) (req_done req) in
        (Booked MSG_BOOKED (lastID db') t en, db').
Proof.
  intros Hne Hst Hdur. unfold postBook.
  apply String.eqb_neq in Hne. rewrite Hne, Hst, Hdur. reflexivity.
Qed.

Lemma postBook_explicit_throws (now : Z) (db : Store) (req : BookRequest) (t : Z) :
  req_serviceType req <> EmptyString ->
  req_startTime req = At t ->
  computeDuration (req_serviceType req) (req_details req) = NotANumber ->
  postBook now db req = (ServerError MSG_INTERNAL, db).
Proof.
  intros Hne Hst Hdur. unfold postBook.
  apply String.eqb_neq in Hne. rewrite Hne, Hst, Hdur. reflexivity.
Qed.

(** C2: whatever the service type and the details, the conflict check rejects
    a candidate that two or more stored bookings overlap, so a third explicit
    booking over two overlapping ones is answered with a conflict and stores
    nothing; and a candidate that at most one stored booking overlaps and that
    meets no coded-entry exclusivity rule is accepted. *)
Theorem C2_overlap_cap (db : Store) (s e : Z) (serviceType : string) (details : Details) :
  ((2 <= length (selectOverlapping db s e))%nat ->
     checkConflicts db s e serviceType details = mkVerdict false (Some MSG_TWO_OVERLAP))
  /\ (forall now req duration,
        req_serviceType req <> EmptyString ->
        req_startTime req = At s ->
        computeDuration (req_serviceType req) (req_details req) = Minutes duration ->
        e = plusMinutes s duration ->
        fitsWithinBlock s e = true ->
        (2 <= length (selectOverlapping db s e))%nat ->
        postBook now db req = (Conflict (Some MSG_TWO_OVERLAP), db))
  /\ ((length (selectOverlapping db s e) <= 1)%nat ->
      codedEntryClash db s e serviceType details = false ->
      checkConflicts db s e serviceType details = mkVerdict true None).
Proof.
  split; [apply checkConflicts_two|]. split.
  - intros now req duration Hne Hst Hdur -> Hfit Hlen.
    rewrite (postBook_explicit now db req s duration Hne Hst Hdur). simpl.
    rewrite Hfit. simpl. by rewrite checkConflicts_two.
  - intros Hlen Hclash.
    pose proof (checkConflicts_ok db s e serviceType details) as Hok.
    rewrite Hclash in Hok.
    assert ((length (selectOverlapping db s e) <? 2)%nat = true) as Hlt
      by (apply Nat.ltb_lt; lia).
    rewrite Hlt in Hok. simpl in Hok.
    unfold checkConflicts in *.
    destruct (2 <=? length (selectOverlapping db s e))%nat; [done|].
    destruct (isKidud (normType serviceType)); [|done].
    by destruct (kidudLoop _ _ _).
Qed.

Lemma C2_overlap_cap_witness :
  checkConflicts exDb2 (plusHM MON 8 30) (plusHM MON 8 35) "hotzla" ∅
    = mkVerdict false (Some MSG_TWO_OVERLAP)
  /\ postBook exNow exDb2 exReq = (Conflict (Some MSG_TWO_OVERLAP), exDb2)
  /\ checkConflicts exDb1 (plusHM MON 8 30) (plusHM MON 8 35) "chul" ∅
    = mkVerdict true None.
Proof.
  pose proof (C2_overlap_cap exDb2 (plusHM MON 8 30) (plusHM MON 8 35) "hotzla" ∅)
    as (H1 & _ & _).
  pose proof (C2_overlap_cap exDb2 (plusHM MON 8 30) (plusHM MON 8 35) "chul" ∅)
    as (_ & H2 & _).
  pose proof (C2_overlap_cap exDb1 (plusHM MON 8 30) (plusHM MON 8 35) "chul" ∅)
    as (_ & _ & H3).
  split; [apply H1; vm_compute; lia|].
  split; [apply (H2 exNow exReq 5);
            [done | reflexivity | reflexivity | reflexivity | reflexivity
             | vm_compute; lia]|].
  apply H3; [vm_compute; lia | reflexivity].
Defined.

Lemma isKidud_nonempty (serviceType : string) :
  isKidud (normType serviceType) = true -> serviceType <> EmptyString.
Proof. intros H ->. discriminate H. Qed.




(** ** The [done] flag *)

Lemma sameButDone_filter (s e : Z) (l l' : list Row) :
  Forall2 sameButDone l l' ->
  Forall2 sameButDone (List.filter (overlaps s e) l) (List.filter (overlaps s e) l').
Proof.
  induction 1 as [|r r' l l' Hr Hl IH]; simpl; [constructor|].
  assert (overlaps s e r = overlaps s e r') as ->.
  { unfold overlaps. destruct Hr as (_ & _ & _ & -> & -> & _). done. }
  destruct (overlaps s e r'); [constructor|]; done.
Qed.

Lemma sameButDone_kidudLoop (newS newA : Z) (l l' : list Row) :
  Forall2 sameButDone l l' -> kidudLoop newS newA l = kidudLoop newS newA l'.
Proof.
  induction 1 as [|r r' l l' Hr Hl IH]; simpl; [done|].
  destruct Hr as (_ & -> & -> & _). by rewrite IH.
Qed.

Lemma sameButDone_checkConflicts (db db' : Store) (s e : Z)
    (serviceType : string) (details : Details) :
  Forall2 sameButDone (rows db) (rows db') ->
  checkConflicts db s e serviceType details = checkConflicts db' s e serviceType details.
Proof.
  intros H. unfold checkConflicts, selectOverlapping.
  pose proof (sameButDone_filter s e _ _ H) as Hf.
  rewrite (Forall2_length _ _ _ Hf).
  by rewrite (sameButDone_kidudLoop _ _ _ _ Hf).
Qed.

(** C10: the conflict check looks at every stored booking that overlaps the
    candidate and never at its [done] flag: two tables whose rows differ only
    in that flag give the same verdict for every candidate, so a booking that
    is marked done keeps counting towards the cap of two and towards the
    exclusivity of coded entries, and the answer to an explicit booking
    request does not depend on the flags either. *)
Theorem C10_done_flag_ignored (db db' : Store) (s e : Z)
    (serviceType : string) (details : Details) :
  Forall2 sameButDone (rows db) (rows db') ->
  checkConflicts db s e serviceType details = checkConflicts db' s e serviceType details
  /\ length (selectOverlapping db s e) = length (selectOverlapping db' s e)
  /\ codedEntryClash db s e serviceType details
     = codedEntryClash db' s e serviceType details
  /\ (forall now req,
        lastID db = lastID db' -> req_startTime req = At s ->
        fst (postBook now db req) = fst (postBook now db' req)).
Proof.
  intros H.
  pose proof (sameButDone_filter s e _ _ H) as Hf.
  split; [by apply sameButDone_checkConflicts|].
  split; [apply (Forall2_length _ _ _ Hf)|].
  split.
  - unfold codedEntryClash, selectOverlapping. f_equal.
    induction Hf as [|r r' l l' Hr Hl IH]; simpl; [done|].
    destruct Hr as (_ & -> & -> & _). by rewrite IH.
  - intros now req Hid Hst. unfold postBook. rewrite Hst.
    destruct (String.eqb _ _); [done|].
    destruct (plusDuration _ _) as [en|]; [|done].
    destruct (negb (fitsWithinBlock _ _)); [done|].
    rewrite (sameButDone_checkConflicts db db') by done.
    destruct (negb (ok _)); [done|]. simpl. by rewrite Hid.
Qed.

Lemma C10_done_flag_ignored_witness :
  checkConflicts exDb2 (plusHM MON 8 30) (plusHM MON 8 35) "chul" ∅
  = checkConflicts (mkStore (map (fun r => mkRow (row_id r) (row_serviceType r)
                                 (row_details r) (row_startTime r) (row_endTime r)
                                 (row_created_at r) (row_phone r) true) (rows exDb2)) 2)
      (plusHM MON 8 30) (plusHM MON 8 35) "chul" ∅.
Proof.
  apply (C10_done_flag_ignored exDb2).
  vm_compute. repeat constructor.
Defined.

(** ** Moving a day's schedule *)

Lemma slotLoop_shift (k : Z) (fuel : nat) (current blkEnd : Z) :
  slotLoop fuel (current + k) (blkEnd + k) = map (shiftSlot k) (slotLoop fuel current blkEnd).
Proof.
  revert current. induction fuel as [|fuel IH]; intros current; simpl; [done|].
  assert ((current + k <=? minusMinutes (blkEnd + k) 1)
          = (current <=? minusMinutes blkEnd 1)) as ->.
  { unfold minusMinutes. destruct (Z.leb_spec current (blkEnd - 1 * MS_PER_MIN));
      [apply Z.leb_le | apply Z.leb_gt]; lia. }
  destruct (current <=? minusMinutes blkEnd 1); [|done].
  simpl. f_equal.
  replace (plusMinutes (current + k) SLOT_STEP_MIN)
    with (plusMinutes current SLOT_STEP_MIN + k) by (unfold plusMinutes; lia).
  apply IH.
Qed.

(** The bound on the iterations is never what stops the loop of a block: with
    any larger bound the loop makes the same slots. *)
Lemma slotLoop_fuel_enough (fuel fuel' : nat) (current blkEnd : Z) :
  (slotFuel current blkEnd <= fuel)%nat ->
  (slotFuel current blkEnd <= fuel')%nat ->
  slotLoop fuel current blkEnd = slotLoop fuel' current blkEnd.
Proof.
  revert fuel' current. induction fuel as [|fuel IH]; intros fuel' current H1 H2.
  - assert (blkEnd - current < 0) as Hneg.
    { unfold slotFuel, SLOT_STEP_MIN, MS_PER_MIN in H1.
      destruct (Z.lt_ge_cases (blkEnd - current) 0) as [|Hge]; [done|].
      pose proof (Z.div_pos (blkEnd - current) (5 * 60000) Hge ltac:(lia)). lia. }
    destruct fuel' as [|fuel']; simpl; [done|].
    assert ((current <=? minusMinutes blkEnd 1) = false) as ->; [|done].
    apply Z.leb_gt. unfold minusMinutes, MS_PER_MIN. lia.
  - simpl. destruct (current <=? minusMinutes blkEnd 1) eqn:Hc.
    + apply Z.leb_le in Hc. unfold minusMinutes, MS_PER_MIN in Hc.
      assert (slotFuel current blkEnd
              = S (slotFuel (plusMinutes current SLOT_STEP_MIN) blkEnd)) as Hstep.
      { unfold slotFuel, plusMinutes, SLOT_STEP_MIN, MS_PER_MIN.
        replace (blkEnd - (current + 5 * 60000))
          with ((blkEnd - current) + (-1) * (5 * 60000)) by lia.
        rewrite Z.div_add by lia.
        pose proof (Z.div_pos (blkEnd - current) (5 * 60000) ltac:(lia) ltac:(lia)). lia. }
      destruct fuel' as [|fuel']; [lia|]. simpl.
      assert ((current <=? minusMinutes blkEnd 1) = true) as ->
        by (apply Z.leb_le; unfold minusMinutes, MS_PER_MIN; lia).
      f_equal. apply IH; lia.
    + destruct fuel' as [|fuel']; simpl; [done|]. by rewrite Hc.
Qed.

Lemma blockSlots_shift (k day : Z) (blk : Block) :
  blockSlots (day + k) blk = map (shiftSlot k) (blockSlots day blk).
Proof.
  unfold blockSlots.
  replace (plusHM (day + k) (bsH blk) (bsM blk))
    with (plusHM day (bsH blk) (bsM blk) + k) by (unfold plusHM; lia).
  replace (plusHM (day + k) (beH blk) (beM blk))
    with (plusHM day (beH blk) (beM blk) + k) by (unfold plusHM; lia).
  rewrite <- slotLoop_shift. f_equal. unfold slotFuel. f_equal. f_equal. f_equal. lia.
Qed.

Lemma generateSlotsIn_shift (k day : Z) (blocks : list Block) :
  generateSlotsIn blocks (day + k) = map (shiftSlot k) (generateSlotsIn blocks day).
Proof.
  unfold generateSlotsIn. induction blocks as [|blk blocks IH]; simpl; [done|].
  by rewrite map_app, blockSlots_shift, IH.
Qed.

Lemma generateSlotsForDay_shift (k day : Z) :
  generateSlotsForDay (day + k) = map (shiftSlot k) (generateSlotsForDay day).
Proof. apply generateSlotsIn_shift. Qed.

Lemma starts_of_day (day : Z) :
  map start (generateSlotsForDay day)
  = map (fun off => off + day) (map start (generateSlotsForDay 0)).
Proof.
  replace day with (0 + day) at 1 by lia.
  rewrite generateSlotsForDay_shift, !map_map. done.
Qed.

Lemma overlaps_shift (k s e : Z) (r : Row) :
  overlaps (s + k) (e + k) (shiftRow k r) = overlaps s e r.
Proof.
  apply eq_true_iff_eq. rewrite !overlaps_spec. simpl. lia.
Qed.

Lemma selectOverlapping_shift (k : Z) (db : Store) (s e : Z) :
  selectOverlapping (shiftStore k db) (s + k) (e + k)
  = map (shiftRow k) (selectOverlapping db s e).
Proof.
  unfold selectOverlapping, shiftStore. simpl.
  induction (rows db) as [|r l IH]; simpl; [done|].
  rewrite overlaps_shift. destruct (overlaps s e r); simpl; by rewrite IH.
Qed.

Lemma kidudLoop_shift (k newS newA : Z) (l : list Row) :
  kidudLoop newS newA (map (shiftRow k) l) = kidudLoop newS newA l.
Proof. induction l as [|r l IH]; simpl; [done|]. by rewrite IH. Qed.

Lemma checkConflicts_shift (k : Z) (db : Store) (s e : Z)
    (serviceType : string) (details : Details) :
  checkConflicts (shiftStore k db) (s + k) (e + k) serviceType details
  = checkConflicts db s e serviceType details.
Proof.
  unfold checkConflicts.
  by rewrite selectOverlapping_shift, length_map, kidudLoop_shift.
Qed.

Section WholeDays.

Variable k : Z.
Hypothesis whole : k mod MS_PER_DAY = 0.

Lemma hasSameDay_shift (a b : Z) : hasSameDay (a + k) (b + k) = hasSameDay a b.
Proof.
  unfold hasSameDay. rewrite !startOfDay_shift by done.
  destruct (Z.eqb_spec (startOfDay a) (startOfDay b));
    [apply Z.eqb_eq | apply Z.eqb_neq]; lia.
Qed.

Lemma fitsWithinBlock_shift (s e : Z) :
  fitsWithinBlock (s + k) (e + k) = fitsWithinBlock s e.
Proof.
  unfold fitsWithinBlock. rewrite startOfDay_shift by done.
  induction WORKING_BLOCKS as [|blk l IH]; simpl; [done|].
  rewrite IH. f_equal. unfold fitsBlock, plusHM.
  f_equal; [destruct (Z.leb_spec (startOfDay s + bsH blk * MS_PER_HOUR + bsM blk * MS_PER_MIN) s)
           | destruct (Z.leb_spec e (startOfDay s + beH blk * MS_PER_HOUR + beM blk * MS_PER_MIN))];
    (apply Z.leb_le || apply Z.leb_gt); lia.
Qed.

Lemma admissible_shift (db : Store) (serviceType : string) (details : Details)
    (durationMin now st : Z) :
  admissible (shiftStore k db) serviceType details durationMin (now + k) (st + k)
  = admissible db serviceType details durationMin now st.
Proof.
  unfold admissible.
  replace (plusMinutes (st + k) durationMin) with (plusMinutes st durationMin + k)
    by (unfold plusMinutes; lia).
  rewrite hasSameDay_shift, fitsWithinBlock_shift, checkConflicts_shift.
  f_equal. f_equal. f_equal. f_equal.
  destruct (Z.ltb_spec st now); [apply Z.ltb_lt | apply Z.ltb_ge]; lia.
Qed.

End WholeDays.

(** ** The two loops over slots are a search and a filter *)

Lemma slotSearch_find (db : Store) (serviceType : string) (details : Details)
    (durationMin now : Z) (slots : list Slot) :
  slotSearch db serviceType details (Minutes durationMin) now slots
  = Returned ((fun st => (st, plusMinutes st durationMin)) <$>
      find (admissible db serviceType details durationMin now) (map start slots)).
Proof.
  induction slots as [|s slots IH]; simpl; [done|].
  unfold admissible at 1.
  destruct ((start s <? now) && hasSameDay (start s) now); simpl; [done|].
  destruct (fitsWithinBlock _ _); simpl; [|done].
  destruct (ok _); simpl; done.
Qed.

Lemma availableLoop_filter (db : Store) (serviceType : string) (details : Details)
    (duration now : Z) (slots : list Slot) :
  availableLoop db serviceType details (Minutes duration) now slots
  = Returned (List.filter (admissible db serviceType details duration now)
                (map start slots)).
Proof.
  induction slots as [|s slots IH]; simpl; [done|].
  unfold admissible at 1.
  destruct ((start s <? now) && hasSameDay (start s) now); simpl; [done|].
  destruct (fitsWithinBlock _ _); simpl; [|done].
  destruct (ok _); simpl; by rewrite IH.
Qed.

(** With a duration that is not a number the loops throw at the first slot
    they reach, and return only when they reach none. *)
Lemma slotSearch_not_a_number (db : Store) (serviceType : string) (details : Details)
    (now : Z) (slots : list Slot) :
  slotSearch db serviceType details NotANumber now slots
  = if existsb (reached now) (map start slots) then Thrown else Returned None.
Proof.
  induction slots as [|s slots IH]; simpl; [done|].
  unfold reached at 1.
  destruct ((start s <? now) && hasSameDay (start s) now); simpl; done.
Qed.

Lemma availableLoop_not_a_number (db : Store) (serviceType : string) (details : Details)
    (now : Z) (slots : list Slot) :
  availableLoop db serviceType details NotANumber now slots
  = if existsb (reached now) (map start slots) then Thrown else Returned [].
Proof.
  induction slots as [|s slots IH]; simpl; [done|].
  unfold reached at 1.
  destruct ((start s <? now) && hasSameDay (start s) now); simpl; done.
Qed.

Lemma filter_admissible_shift (k : Z) (db : Store) (serviceType : string)
    (details : Details) (duration now : Z) (l : list Z) :
  k mod MS_PER_DAY = 0 ->
  List.filter (admissible (shiftStore k db) serviceType details duration (now + k))
    (map (fun off => off + k) l)
  = map (fun off => off + k)
      (List.filter (admissible db serviceType details duration now) l).
Proof.
  intros Hk. induction l as [|a l IH]; simpl; [done|].
  rewrite admissible_shift by done.
  destruct (admissible db serviceType details duration now a); simpl; by rewrite IH.
Qed.

Lemma admissible_nonKidud (db : Store) (serviceType : string) (details : Details)
    (durationMin now st : Z) :
  isKidud (normType serviceType) = false ->
  admissible db serviceType details durationMin now st
  = negb ((st <? now) && hasSameDay st now)
    && fitsWithinBlock st (plusMinutes st durationMin)
    && (length (selectOverlapping db st (plusMinutes st durationMin)) <? 2)%nat.
Proof. intros H. unfold admissible. by rewrite checkConflicts_nonKidud. Qed.

Lemma duration_five_nonKidud (serviceType : string) (details : Details) :
  computeDuration serviceType details = Minutes 5 -> isKidud (normType serviceType) = false.
Proof.
  intros H. destruct (isKidud (normType serviceType)) eqn:Hk; [|done].
  pose proof (computeDuration_kidud_ge serviceType details 5 Hk H). lia.
Qed.

Lemma getAvailability_day (now : Z) (db : Store) (date : Z)
    (serviceType : string) (details : Details) (duration : Z) :
  isWeekend date = false ->
  computeDuration serviceType details = Minutes duration ->
  getAvailability now db (At date) serviceType details
  = Available (List.filter (admissible db serviceType details duration now)
      (map start (generateSlotsForDay (startOfDay date)))).
Proof.
  intros H Hd. unfold getAvailability.
  by rewrite isWeekend_startOfDay, H, Hd, availableLoop_filter.
Qed.

Lemma getAvailability_weekend (now : Z) (db : Store) (date : Z)
    (serviceType : string) (details : Details) :
  isWeekend date = true ->
  getAvailability now db (At date) serviceType details = Available [].
Proof. intros H. unfold getAvailability. by rewrite isWeekend_startOfDay, H. Qed.

(** The table after [n] bookings of the same five-minute interval at 08:30 of
    the reference Monday, for any service type and details. *)
Lemma five_minute_day_listing (serviceType : string) (details : Details)
    (p1 p2 : option string) (d1 d2 : bool) :
  isKidud (normType serviceType) = false ->
  let r1 := mkRow 1 serviceType details (plusHM 0 8 30) (plusHM 0 8 35) (plusHM 0 8 0) p1 d1 in
  let r2 := mkRow 2 serviceType details (plusHM 0 8 30) (plusHM 0 8 35) (plusHM 0 8 0) p2 d2 in
  let base := map start (generateSlotsForDay 0) in
  (exists rest,
     List.filter (admissible emptyStore serviceType details 5 (plusHM 0 8 0)) base
     = plusHM 0 8 30 :: rest)
  /\ (exists rest,
     List.filter (admissible (mkStore [r1] 1) serviceType details 5 (plusHM 0 8 0)) base
     = plusHM 0 8 30 :: rest)
  /\ (exists rest,
     List.filter (admissible (mkStore [r1; r2] 2) serviceType details 5 (plusHM 0 8 0)) base
     = plusHM 0 8 35 :: rest
     /\ forallb (fun x => negb (x =? plusHM 0 8 30)) rest = true).
Proof.
  intros Hk r1 r2 base.
  split; [|split].
  - eexists.
    rewrite (List.filter_ext _ _ (fun st => admissible_nonKidud _ _ _ _ _ st Hk)).
    vm_compute. reflexivity.
  - eexists.
    rewrite (List.filter_ext _ _ (fun st => admissible_nonKidud _ _ _ _ _ st Hk)).
    vm_compute. reflexivity.
  - eexists.
    rewrite (List.filter_ext _ _ (fun st => admissible_nonKidud _ _ _ _ _ st Hk)).
    split; vm_compute; reflexivity.
Qed.

Lemma plusHM_day (day h m : Z) : plusHM day h m = plusHM 0 h m + day.
Proof. unfold plusHM. lia. Qed.

Lemma listing_shift (day : Z) (db0 : Store) (serviceType : string) (details : Details)
    (duration now0 : Z) (date : Z) (c : Z) (rest : list Z) :
  startOfDay date = day ->
  isWeekend date = false ->
  computeDuration serviceType details = Minutes duration ->
  List.filter (admissible db0 serviceType details duration now0)
    (map start (generateSlotsForDay 0)) = c :: rest ->
  getAvailability (now0 + day) (shiftStore day db0) (At date) serviceType details
  = Available (c + day :: map (fun off => off + day) rest).
Proof.
  intros Hday Hwk Hdur Hbase.
  rewrite (getAvailability_day _ _ _ _ _ duration) by done. rewrite Hday, starts_of_day.
  rewrite filter_admissible_shift by (rewrite <- Hday; apply startOfDay_mod).
  by rewrite Hbase.
Qed.

(** C1, as the code has it: on a working day with [now] at 08:00 and an empty
    table, a five-minute request sees 08:30 as its first available slot and
    booking it stores the interval from 08:30 to 08:35.  One booking does not
    close the slot: the listing for that day still starts at 08:30.  After a
    second booking of the same interval the listing starts at 08:35 and no
    longer contains 08:30. *)
Theorem C1_worked_example_two_bookings (date : Z) (serviceType : string)
    (details : Details) (phone : option string) (dn : bool) :
  isWeekend date = false ->
  serviceType <> EmptyString ->
  computeDuration serviceType details = Minutes 5 ->
  let day := startOfDay date in
  let now := plusHM day 8 0 in
  let t := plusHM day 8 30 in
  let req := mkBookRequest serviceType (At t) details phone dn in
  let db1 := snd (postBook now emptyStore req) in
  let db2 := snd (postBook now db1 req) in
  (exists rest,
     getAvailability now emptyStore (At date) serviceType details = Available (t :: rest))
  /\ postBook now emptyStore req = (Booked MSG_BOOKED 1 t (plusHM day 8 35), db1)
  /\ (exists rest,
     getAvailability now db1 (At date) serviceType details = Available (t :: rest))
  /\ postBook now db1 req = (Booked MSG_BOOKED 2 t (plusHM day 8 35), db2)
  /\ (exists rest,
     getAvailability now db2 (At date) serviceType details
     = Available (plusHM day 8 35 :: rest) /\ ~ In t rest).
Proof.
  intros Hwk Hne Hdur day now t req db1 db2.
  pose proof (duration_five_nonKidud _ _ Hdur) as Hk.
  pose proof (startOfDay_mod date) as Hmod. fold day in Hmod.
  set (ph := phoneOrNull phone).
  destruct (five_minute_day_listing serviceType details ph ph dn dn Hk)
    as ((l0 & H0) & (l1 & H1) & (l2 & H2 & Hnot)).
  assert (fitsWithinBlock t (plusMinutes t 5) = true) as Hfit.
  { unfold t. rewrite plusHM_day.
    replace (plusMinutes (plusHM 0 8 30 + day) 5) with (plusMinutes (plusHM 0 8 30) 5 + day)
      by (unfold plusMinutes; lia).
    by rewrite fitsWithinBlock_shift. }
  assert (plusMinutes t 5 = plusHM day 8 35) as Hend
    by (unfold t, plusMinutes, plusHM, MS_PER_HOUR; lia).
  assert (postBook now emptyStore req
          = (Booked MSG_BOOKED 1 t (plusHM day 8 35),
             mkStore [mkRow 1 serviceType details t (plusHM day 8 35) now ph dn] 1)) as Hb1.
  { rewrite (postBook_explicit now emptyStore req t 5 Hne eq_refl Hdur). simpl.
    rewrite Hfit, checkConflicts_empty, Hend. reflexivity. }
  assert (db1 = shiftStore day
            (mkStore [mkRow 1 serviceType details (plusHM 0 8 30) (plusHM 0 8 35)
                        (plusHM 0 8 0) ph dn] 1)) as Hdb1.
  { unfold db1. rewrite Hb1. unfold shiftStore, shiftRow. simpl.
    unfold t, now. by rewrite !(plusHM_day day). }
  assert (postBook now db1 req
          = (Booked MSG_BOOKED 2 t (plusHM day 8 35),
             mkStore [mkRow 1 serviceType details t (plusHM day 8 35) now ph dn;
                      mkRow 2 serviceType details t (plusHM day 8 35) now ph dn] 2)) as Hb2.
  { assert (ok (checkConflicts db1 t (plusMinutes t 5) serviceType details) = true) as Hacc.
    { rewrite (checkConflicts_nonKidud db1 t (plusMinutes t 5) serviceType details Hk).
      unfold db1. rewrite Hb1. unfold selectOverlapping. simpl.
      by destruct (overlaps _ _ _). }
    rewrite (postBook_explicit now db1 req t 5 Hne eq_refl Hdur). cbv zeta.
    change (req_serviceType req) with serviceType.
    change (req_details req) with details.
    rewrite Hfit, Hacc. simpl.
    unfold db1. rewrite Hb1, Hend. reflexivity. }
  assert (db2 = shiftStore day
            (mkStore [mkRow 1 serviceType details (plusHM 0 8 30) (plusHM 0 8 35)
                        (plusHM 0 8 0) ph dn;
                      mkRow 2 serviceType details (plusHM 0 8 30) (plusHM 0 8 35)
                        (plusHM 0 8 0) ph dn] 2)) as Hdb2.
  { unfold db2. rewrite Hb2. unfold shiftStore, shiftRow. simpl.
    cbv delta [t now]. by rewrite !(plusHM_day day). }
  assert (emptyStore = shiftStore day emptyStore) as Hdb0 by reflexivity.
  assert (now = plusHM 0 8 0 + day) as Hnow by (unfold now; apply plusHM_day).
  assert (t = plusHM 0 8 30 + day) as Ht by (unfold t; apply plusHM_day).
  split; [|split; [|split; [|split]]].
  - exists (map (fun off => off + day) l0).
    rewrite Hdb0, Hnow, Ht. by apply (listing_shift _ _ _ _ 5).
  - unfold db1. by rewrite Hb1.
  - exists (map (fun off => off + day) l1).
    rewrite Hdb1, Hnow, Ht. by apply (listing_shift _ _ _ _ 5).
  - unfold db2. by rewrite Hb2.
  - exists (map (fun off => off + day) l2). split.
    + rewrite Hdb2, Hnow, (plusHM_day day 8 35). by apply (listing_shift _ _ _ _ 5).
    + rewrite Ht. intros Hin. apply in_map_iff in Hin as (off & Hoff & Hin).
      assert (off = plusHM 0 8 30) as -> by lia.
      rewrite forallb_forall in Hnot. specialize (Hnot _ Hin).
      by rewrite Z.eqb_refl in Hnot.
Qed.

Lemma C1_worked_example_two_bookings_witness :
  (exists rest,
     getAvailability exNow exDb1 (At MON) "chul" ∅ = Available (plusHM MON 8 30 :: rest))
  /\ (exists rest,
     getAvailability exNow exDb2 (At MON) "chul" ∅ = Available (plusHM MON 8 35 :: rest)
     /\ ~ In (plusHM MON 8 30) rest).
Proof.
  pose proof (C1_worked_example_two_bookings MON "chul" ∅ None false
                eq_refl ltac:(discriminate) eq_refl) as (_ & _ & H1 & _ & H2).
  split; [exact H1 | exact H2].
Defined.

Lemma C1_one_booking_counterexample :
  (exists rest,
     getAvailability exNow emptyStore (At MON) "chul" ∅
     = Available (plusHM MON 8 30 :: rest))
  /\ postBook exNow emptyStore exReq
     = (Booked MSG_BOOKED 1 (plusHM MON 8 30) (plusHM MON 8 35), exDb1)
  /\ exists l,
     getAvailability exNow exDb1 (At MON) "chul" ∅ = Available l
     /\ ~ (head l = Some (plusHM MON 8 35) /\ ~ In (plusHM MON 8 30) l).
Proof.
  split; [eexists; vm_compute; reflexivity|].
  split; [reflexivity|].
  eexists. split; [vm_compute; reflexivity|].
  intros [H _]. discriminate H.
Qed.

(** ** Explicit bookings *)

Lemma fitsWithinBlock_spec (startDT endDT : Z) :
  fitsWithinBlock startDT endDT = true
  <-> exists blk, In blk WORKING_BLOCKS
      /\ plusHM (startOfDay startDT) (bsH blk) (bsM blk) <= startDT
      /\ endDT <= plusHM (startOfDay startDT) (beH blk) (beM blk).
Proof.
  unfold fitsWithinBlock. rewrite existsb_exists.
  split; intros (blk & Hin & H); exists blk; (split; [done|]).
  - unfold fitsBlock in H. apply andb_true_iff in H as [H1 H2].
    apply Z.leb_le in H1, H2. done.
  - unfold fitsBlock. apply andb_true_iff. split; apply Z.leb_le; tauto.
Qed.

(** ** Labels that name a property of every object *)

Lemma inheritedKey_In (k : string) : inheritedKey k = true -> In k OBJECT_PROTOTYPE_KEYS.
Proof.
  unfold inheritedKey. rewrite existsb_exists.
  intros (x & Hin & Heq). apply String.eqb_eq in Heq. by subst.
Qed.

(** Such a label is not empty, is no coded entry and no same-day label, is not
    a key of the duration table, and its duration is what the lookup finds on
    the prototype: not a number. *)
Lemma inherited_label (serviceType : string) (details : Details) :
  inheritedKey serviceType = true ->
  serviceType <> EmptyString
  /\ isKidud (normType serviceType) = false
  /\ ownGet durationMap serviceType = None
  /\ computeDuration serviceType details = NotANumber
  /\ includes (normType serviceType) SAME_DAY_LABEL
     || String.eqb (normType serviceType) SAME_DAY_LABEL
     || includes (normType serviceType) (toLowerCase SAME_DAY_LABEL) = false.
Proof.
  intros H. apply inheritedKey_In in H.
  unfold OBJECT_PROTOTYPE_KEYS in H. simpl In in H.
  repeat (destruct H as [<-|H];
          [repeat split; try discriminate; vm_compute; reflexivity|]).
  done.
Qed.

(** C7: an explicit booking under a service type that names a property every
    object inherits ([constructor], [toString], [__proto__] and the like) is
    answered with the internal error of the [catch] and stores nothing: the
    lookup of the duration finds the inherited property, which is not a number
    of minutes, and adding it to the start throws.  The booking is neither
    refused as an invalid interval or as a conflict nor stored. *)
Theorem C7_explicit_inherited_label (now : Z) (db : Store) (req : BookRequest) (t : Z) :
  inheritedKey (req_serviceType req) = true ->
  req_startTime req = At t ->
  computeDuration (req_serviceType req) (req_details req) = NotANumber
  /\ postBook now db req = (ServerError MSG_INTERNAL, db).
Proof.
  intros Hk Hst.
  destruct (inherited_label _ (req_details req) Hk) as (Hne & _ & _ & Hdur & _).
  split; [done|]. by apply (postBook_explicit_throws now db req t).
Qed.

Lemma C7_explicit_inherited_label_witness :
  postBook exNow emptyStore (mkBookRequest "constructor" (At (plusHM MON 8 30)) ∅ None false)
  = (ServerError MSG_INTERNAL, emptyStore).
Proof.
  apply (C7_explicit_inherited_label exNow emptyStore
           (mkBookRequest "constructor" (At (plusHM MON 8 30)) ∅ None false)
           (plusHM MON 8 30) eq_refl eq_refl).
Defined.

(** X21: an explicit booking whose duration is a number of minutes takes the
    interval from the requested start to that start plus the duration.  It is
    refused as an invalid interval when the interval is not inside one working
    block, refused as a conflict, with the reason of the conflict check, when
    that check rejects, and otherwise stored, with an absent or empty phone
    stored as null, and returned; the returned interval is as long as the
    duration, lies inside a working block, and is the one stored. *)
Theorem explicit_booking_outcomes (now : Z) (db : Store) (req : BookRequest)
    (t duration : Z) :
  req_serviceType req <> EmptyString ->
  req_startTime req = At t ->
  computeDuration (req_serviceType req) (req_details req) = Minutes duration ->
  let en := plusMinutes t duration in
  let verdict := checkConflicts db t en (req_serviceType req) (req_details req) in
  (fitsWithinBlock t en = false ->
     postBook now db req = (BadRequest MSG_NOT_IN_BLOCK, db))
  /\ (fitsWithinBlock t en = true -> ok verdict = false ->
     postBook now db req = (Conflict (message verdict), db))
  /\ (fitsWithinBlock t en = true -> ok verdict = true ->
     postBook now db req
     = (Booked MSG_BOOKED (lastID db + 1) t en,
        mkStore (rows db ++ [mkRow (lastID db + 1) (req_serviceType req) (req_details req)
                               t en now (phoneOrNull (req_phone req)) (req_done req)])
                (lastID db + 1)))
  /\ (forall m id s e db',
     postBook now db req = (Booked m id s e, db') ->
     s = t /\ e - s = duration * MS_PER_MIN /\ fitsWithinBlock s e = true
     /\ exists r, last (rows db') = Some r
        /\ row_id r = id /\ row_startTime r = s /\ row_endTime r = e).
Proof.
  intros Hne Hst Hdur en verdict.
  rewrite (postBook_explicit now db req t duration Hne Hst Hdur). cbv zeta.
  fold en. fold verdict.
  split; [by intros ->|].
  split; [by intros -> ->|].
  split; [by intros -> ->|].
  intros m id s e db'.
  destruct (fitsWithinBlock t en) eqn:Hfit; simpl; [|done].
  destruct (ok verdict); simpl; [|done].
  intros [= <- <- <- <- <-].
  split; [done|]. split; [unfold en, plusMinutes; lia|]. split; [done|].
  eexists. split; [apply last_snoc|]. done.
Qed.

Lemma explicit_booking_outcomes_witness :
  postBook exNow exDb1 exReq
  = (Booked MSG_BOOKED 2 (plusHM MON 8 30) (plusHM MON 8 35), exDb2)
  /\ postBook exNow exDb2 exReq = (Conflict (Some MSG_TWO_OVERLAP), exDb2)
  /\ postBook exNow emptyStore (mkBookRequest "hotzla" (At (plusHM MON 11 20)) ∅ None false)
     = (BadRequest MSG_NOT_IN_BLOCK, emptyStore).
Proof.
  pose proof (explicit_booking_outcomes exNow exDb1 exReq (plusHM MON 8 30) 5
                ltac:(discriminate) eq_refl eq_refl) as (_ & _ & H1 & _).
  pose proof (explicit_booking_outcomes exNow exDb2 exReq (plusHM MON 8 30) 5
                ltac:(discriminate) eq_refl eq_refl) as (_ & H2 & _).
  pose proof (explicit_booking_outcomes exNow emptyStore
                (mkBookRequest "hotzla" (At (plusHM MON 11 20)) ∅ None false)
                (plusHM MON 11 20) 15 ltac:(discriminate) eq_refl eq_refl) as (H3 & _).
  split; [apply H1; reflexivity|].
  split; [apply H2; reflexivity | apply H3; reflexivity].
Defined.

(** ** The forward search is a search through the candidates of the horizon *)

Lemma find_app {A : Type} (f : A -> bool) (l1 l2 : list A) :
  find f (l1 ++ l2) = match find f l1 with Some x => Some x | None => find f l2 end.
Proof. induction l1 as [|a l1 IH]; simpl; [done|]. by destruct (f a). Qed.

Lemma candidates_cons (day : Z) (days : list Z) :
  candidates (day :: days)
  = (if isWeekend day then [] else map start (generateSlotsForDay day)) ++ candidates days.
Proof. unfold candidates. simpl. by destruct (isWeekend day). Qed.

Lemma plusDays_succ (day : Z) (i : nat) :
  plusDays (plusDays day 1) (Z.of_nat i) = plusDays day (Z.of_nat (S i)).
Proof. unfold plusDays. lia. Qed.

Lemma days_from_succ (day : Z) (a n : nat) :
  map (fun i => plusDays (plusDays day 1) (Z.of_nat i)) (seq a n)
  = map (fun i => plusDays day (Z.of_nat i)) (seq (S a) n).
Proof.
  rewrite <- seq_shift, map_map. apply map_ext. intros i. apply plusDays_succ.
Qed.

Lemma dayLoop_later (db : Store) (serviceType : string) (details : Details)
    (durationMin now : Z) (sameDayOnly : bool) (n : nat) (dayOffset day : Z) :
  0 < dayOffset ->
  dayLoop db serviceType details (Minutes durationMin) now sameDayOnly n dayOffset day
  = Returned
      (if sameDayOnly then None
       else (fun st => (st, plusMinutes st durationMin)) <$>
              find (admissible db serviceType details durationMin now)
                   (candidates (map (fun i => plusDays day (Z.of_nat i)) (seq 1 n)))).
Proof.
  revert dayOffset day. induction n as [|n IH]; intros dayOffset day Hpos.
  { simpl. by destruct sameDayOnly. }
  simpl dayLoop.
  assert ((0 <? dayOffset) = true) as -> by (by apply Z.ltb_lt).
  destruct sameDayOnly; simpl; [done|].
  rewrite candidates_cons, find_app.
  change (Z.of_nat 1) with 1.
  rewrite <- days_from_succ.
  destruct (isWeekend (plusDays day 1)).
  - simpl. rewrite IH by lia. done.
  - rewrite slotSearch_find.
    destruct (find _ (map start _)); simpl; [done|].
    rewrite IH by lia. done.
Qed.

Lemma dayLoop_later_not_a_number (db : Store) (serviceType : string) (details : Details)
    (now : Z) (sameDayOnly : bool) (n : nat) (dayOffset day : Z) :
  0 < dayOffset ->
  dayLoop db serviceType details NotANumber now sameDayOnly n dayOffset day
  = if negb sameDayOnly
       && existsb (reached now)
            (candidates (map (fun i => plusDays day (Z.of_nat i)) (seq 1 n)))
    then Thrown else Returned None.
Proof.
  revert dayOffset day. induction n as [|n IH]; intros dayOffset day Hpos.
  { simpl. by destruct sameDayOnly. }
  simpl dayLoop.
  assert ((0 <? dayOffset) = true) as -> by (by apply Z.ltb_lt).
  destruct sameDayOnly; simpl; [done|].
  rewrite candidates_cons, existsb_app.
  change (Z.of_nat 1) with 1.
  rewrite <- days_from_succ.
  destruct (isWeekend (plusDays day 1)).
  - simpl. rewrite IH by lia. done.
  - rewrite slotSearch_not_a_number.
    destruct (existsb _ (map start _)); simpl; [done|].
    rewrite IH by lia. done.
Qed.

Lemma plusDays_zero (day : Z) : plusDays day 0 = day.
Proof. unfold plusDays. lia. Qed.

Lemma findNextAvailableSlot_spec (db : Store) (now : Z) (serviceType : string)
    (details : Details) (durationMin : Z) (fromDT : Z) (sameDayOnly : bool) (maxDays : Z) :
  computeDuration serviceType details = Minutes durationMin ->
  findNextAvailableSlot db now serviceType details fromDT sameDayOnly maxDays
  = Returned (specSearch db now serviceType details durationMin fromDT sameDayOnly maxDays).
Proof.
  intros Hdur. unfold findNextAvailableSlot, specSearch, horizonDays. rewrite Hdur.
  destruct (Z.to_nat (maxDays + 1)) as [|n].
  { simpl. by destruct sameDayOnly. }
  simpl dayLoop. simpl seq. simpl map.
  change (Z.of_nat 0) with 0. rewrite plusDays_zero.
  rewrite andb_false_r.
  rewrite dayLoop_later by lia.
  destruct sameDayOnly.
  - simpl take. rewrite candidates_cons. unfold candidates at 1. simpl.
    rewrite app_nil_r.
    destruct (isWeekend (startOfDay fromDT)); [done|].
    rewrite slotSearch_find. by destruct (find _ _).
  - rewrite candidates_cons, find_app.
    destruct (isWeekend (startOfDay fromDT)); [done|].
    rewrite slotSearch_find. by destruct (find _ (map start _)).
Qed.

(** With a duration that is not a number the search throws as soon as it
    reaches a candidate of the horizon, and answers that nothing is free when
    it reaches none. *)
Lemma findNextAvailableSlot_not_a_number (db : Store) (now : Z) (serviceType : string)
    (details : Details) (fromDT : Z) (sameDayOnly : bool) (maxDays : Z) :
  computeDuration serviceType details = NotANumber ->
  findNextAvailableSlot db now serviceType details fromDT sameDayOnly maxDays
  = if existsb (reached now) (candidates (horizonDays fromDT sameDayOnly maxDays))
    then Thrown else Returned None.
Proof.
  intros Hdur. unfold findNextAvailableSlot, horizonDays. rewrite Hdur.
  destruct (Z.to_nat (maxDays + 1)) as [|n].
  { simpl. by destruct sameDayOnly. }
  simpl dayLoop. simpl seq. simpl map.
  change (Z.of_nat 0) with 0. rewrite plusDays_zero.
  rewrite andb_false_r.
  rewrite dayLoop_later_not_a_number by lia.
  destruct sameDayOnly.
  - simpl take. rewrite candidates_cons. unfold candidates at 1. simpl.
    rewrite app_nil_r.
    destruct (isWeekend (startOfDay fromDT)); [done|].
    rewrite slotSearch_not_a_number. by destruct (existsb _ _).
  - rewrite candidates_cons, existsb_app.
    destruct (isWeekend (startOfDay fromDT)); [done|].
    rewrite slotSearch_not_a_number. by destruct (existsb _ (map start _)).
Qed.

Lemma horizonDays_In (fromDT : Z) (sameDayOnly : bool) (maxDays day : Z) :
  In day (horizonDays fromDT sameDayOnly maxDays)
  <-> exists i : Z, 0 <= i <= maxDays /\ (sameDayOnly = true -> i = 0)
      /\ day = plusDays (startOfDay fromDT) i.
Proof.
  unfold horizonDays.
  assert (forall n, In day (map (fun i => plusDays (startOfDay fromDT) (Z.of_nat i)) (seq 0 n))
          <-> exists i : Z, 0 <= i < Z.of_nat n /\ day = plusDays (startOfDay fromDT) i) as Hall.
  { intros n. rewrite in_map_iff. split.
    - intros (i & <- & Hi). apply in_seq in Hi. exists (Z.of_nat i). split; [lia|done].
    - intros (i & Hi & ->). exists (Z.to_nat i). split; [f_equal; lia|].
      apply in_seq. lia. }
  destruct sameDayOnly.
  - destruct (Z.to_nat (maxDays + 1)) as [|n] eqn:Hn; simpl.
    + split; [done|]. intros (i & Hi & _). lia.
    + rewrite ?take_0. split.
      * intros [<-|[]]. exists 0. split; [lia|]. split; done.
      * intros (i & Hi & H0 & ->). rewrite H0 by done. by left.
  - rewrite Hall. split; intros (i & Hi & H); exists i.
    + split; [lia|]. split; [done|]. done.
    + split; [lia|]. tauto.
Qed.

Lemma horizonDays_length (fromDT : Z) (sameDayOnly : bool) (maxDays : Z) :
  (length (horizonDays fromDT sameDayOnly maxDays) <= Z.to_nat (maxDays + 1))%nat
  /\ (sameDayOnly = true -> (length (horizonDays fromDT sameDayOnly maxDays) <= 1)%nat).
Proof.
  unfold horizonDays. destruct sameDayOnly.
  - rewrite length_take, length_map, length_seq. lia.
  - rewrite length_map, length_seq. split; [lia|done].
Qed.

Lemma base_offsets_bounds :
  forallb (fun off => (plusHM 0 8 30 <=? off) && (off <=? plusHM 0 21 55))
          (map start (generateSlotsForDay 0)) = true.
Proof. vm_compute. reflexivity. Qed.

Lemma candidates_In (days : list Z) (c : Z) :
  In c (candidates days)
  <-> exists day off, In day days /\ isWeekend day = false
      /\ In off (map start (generateSlotsForDay 0)) /\ c = off + day.
Proof.
  unfold candidates. rewrite in_flat_map. split.
  - intros (day & Hday & Hc). apply filter_In in Hday as [Hday Hwk].
    apply negb_true_iff in Hwk. rewrite starts_of_day in Hc.
    apply in_map_iff in Hc as (off & <- & Hoff). by exists day, off.
  - intros (day & off & Hday & Hwk & Hoff & ->). exists day. split.
    + apply filter_In. split; [done|]. by rewrite Hwk.
    + rewrite starts_of_day. apply in_map_iff. by exists off.
Qed.

Lemma base_offset_range (off : Z) :
  In off (map start (generateSlotsForDay 0)) -> 0 <= off < MS_PER_DAY.
Proof.
  intros H. pose proof base_offsets_bounds as Hb.
  rewrite forallb_forall in Hb. specialize (Hb _ H).
  apply andb_true_iff in Hb as [H1 H2]. apply Z.leb_le in H1, H2.
  revert H1 H2. unfold plusHM, MS_PER_DAY, MS_PER_HOUR, MS_PER_MIN. lia.
Qed.

Lemma candidate_day (fromDT : Z) (sameDayOnly : bool) (maxDays c : Z) :
  In c (candidates (horizonDays fromDT sameDayOnly maxDays)) ->
  isWeekend c = false
  /\ exists i : Z, 0 <= i <= maxDays /\ (sameDayOnly = true -> i = 0)
     /\ startOfDay c = plusDays (startOfDay fromDT) i.
Proof.
  intros H. apply candidates_In in H as (day & off & Hday & Hwk & Hoff & ->).
  apply horizonDays_In in Hday as (i & Hi & Hs & ->).
  assert (startOfDay (off + plusDays (startOfDay fromDT) i) = plusDays (startOfDay fromDT) i)
    as Hsod.
  { rewrite Z.add_comm. apply startOfDay_offset.
    - apply plusDays_mod, startOfDay_mod.
    - by apply base_offset_range. }
  split.
  - by rewrite <- isWeekend_startOfDay, Hsod.
  - by exists i.
Qed.

Lemma search_result_inv (db : Store) (now : Z) (serviceType : string)
    (details : Details) (fromDT : Z) (sameDayOnly : bool) (maxDays s e : Z) :
  findNextAvailableSlot db now serviceType details fromDT sameDayOnly maxDays
  = Returned (Some (s, e)) ->
  exists durationMin,
    computeDuration serviceType details = Minutes durationMin
    /\ e = plusMinutes s durationMin
    /\ In s (candidates (horizonDays fromDT sameDayOnly maxDays))
    /\ admissible db serviceType details durationMin now s = true.
Proof.
  destruct (computeDuration serviceType details) as [m|] eqn:Hdur.
  - rewrite (findNextAvailableSlot_spec _ _ _ _ m) by done. unfold specSearch.
    destruct (find _ _) as [c|] eqn:Hf; simpl; [|done].
    intros [= <- <-]. apply find_some in Hf. exists m. tauto.
  - rewrite findNextAvailableSlot_not_a_number by done.
    by destruct (existsb _ _).
Qed.

Lemma slots_per_day (day : Z) : length (generateSlotsForDay day) = 78%nat.
Proof.
  replace day with (0 + day) by lia.
  rewrite generateSlotsForDay_shift, length_map. reflexivity.
Qed.

Lemma search_never_weekend (db : Store) (now : Z) (serviceType : string)
    (details : Details) (fromDT : Z) (sameDayOnly : bool) (maxDays s e date : Z) :
  findNextAvailableSlot db now serviceType details fromDT sameDayOnly maxDays
  = Returned (Some (s, e)) ->
  isWeekend date = true ->
  isWeekend s = false /\ startOfDay s <> startOfDay date.
Proof.
  intros Hs Hwk. apply search_result_inv in Hs as (m & _ & _ & Hin & _).
  apply candidate_day in Hin as [Hs _]. split; [done|].
  intros Heq. rewrite <- isWeekend_startOfDay, Heq, isWeekend_startOfDay in Hs. congruence.
Qed.

Lemma C5_weekend_slots_counterexample :
  isWeekend FRI = true /\ generateSlotsForDay FRI <> [].
Proof. split; [reflexivity|]. vm_compute. discriminate. Qed.

(** C5, as the code has it: [generateSlotsForDay] makes the same 78 slots for
    a weekend day as for any other day.  The weekend is left out by its
    callers: the availability listing of a weekend day is empty, and the
    forward search skips weekend days, so the slot it returns is never on
    one. *)
Theorem C5_weekend_excluded_by_callers (date now : Z) (db : Store)
    (serviceType : string) (details : Details)
    (fromDT : Z) (sameDayOnly : bool) (maxDays : Z) :
  isWeekend date = true ->
  length (generateSlotsForDay (startOfDay date)) = 78%nat
  /\ getAvailability now db (At date) serviceType details = Available []
  /\ (forall s e,
        findNextAvailableSlot db now serviceType details fromDT sameDayOnly maxDays
        = Returned (Some (s, e)) ->
        isWeekend s = false /\ startOfDay s <> startOfDay date).
Proof.
  intros Hwk. split; [apply slots_per_day|].
  split; [by apply getAvailability_weekend|].
  intros s e Hs. by apply (search_never_weekend _ _ _ _ _ _ _ _ _ date Hs).
Qed.

Lemma C5_weekend_excluded_by_callers_witness :
  getAvailability exNow emptyStore (At (plusHM FRI 9 0)) "chul" ∅ = Available []
  /\ findNextAvailableSlot emptyStore (plusHM FRI 9 0) "chul" ∅ (plusHM FRI 9 0) false 30
     = Returned (Some (plusHM (plusDays MON 6) 8 30, plusHM (plusDays MON 6) 8 35)).
Proof.
  pose proof (C5_weekend_excluded_by_callers (plusHM FRI 9 0) exNow emptyStore "chul" ∅
                (plusHM FRI 9 0) false 30 eq_refl) as (_ & H & _).
  split; [exact H | vm_compute; reflexivity].
Defined.

(** C8: the forward search is the search of the specification: it goes
    through the candidates of at most [maxDays + 1] calendar days that start
    at the day of [fromDT] (through those of that one day when [sameDayOnly]),
    weekend days left out, and returns the first admissible one.  It always
    ends; with a duration in minutes it returns nothing exactly when no
    candidate of that horizon is admissible, and the request is then answered
    with "no availability" and nothing is stored.  With a duration that is not
    a number it ends at the first candidate it reaches, by throwing. *)
Theorem C8_bounded_horizon (db : Store) (now : Z) (serviceType : string)
    (details : Details) (fromDT : Z) (sameDayOnly : bool) (maxDays : Z) :
  let horizon := horizonDays fromDT sameDayOnly maxDays in
  let found := findNextAvailableSlot db now serviceType details fromDT sameDayOnly maxDays in
  (forall durationMin,
     computeDuration serviceType details = Minutes durationMin ->
     found = Returned (specSearch db now serviceType details durationMin
                         fromDT sameDayOnly maxDays))
  /\ (computeDuration serviceType details = NotANumber ->
      found = if existsb (reached now) (candidates horizon) then Thrown else Returned None)
  /\ (length horizon <= Z.to_nat (maxDays + 1))%nat
  /\ (sameDayOnly = true -> (length horizon <= 1)%nat)
  /\ (forall day, In day horizon ->
        exists i, 0 <= i <= maxDays /\ (sameDayOnly = true -> i = 0)
                  /\ day = plusDays (startOfDay fromDT) i)
  /\ (forall c, In c (candidates horizon) -> isWeekend c = false)
  /\ (forall s e, found = Returned (Some (s, e)) ->
        In s (candidates horizon)
        /\ exists durationMin,
             computeDuration serviceType details = Minutes durationMin
             /\ admissible db serviceType details durationMin now s = true)
  /\ (forall durationMin,
        computeDuration serviceType details = Minutes durationMin ->
        (found = Returned None <->
           forall c, In c (candidates horizon) ->
                     admissible db serviceType details durationMin now c = false))
  /\ (forall req,
        req_serviceType req <> EmptyString -> req_startTime req = Absent ->
        findNextAvailableSlot db now (req_serviceType req) (req_details req) now
          (includes (normType (req_serviceType req)) SAME_DAY_LABEL) 30 = Returned None ->
        postBook now db req = (Conflict (Some MSG_NO_AVAILABILITY), db)).
Proof.
  intros horizon found.
  split; [intros durationMin Hdur; by apply findNextAvailableSlot_spec|].
  split; [apply findNextAvailableSlot_not_a_number|].
  split; [apply horizonDays_length|].
  split; [apply horizonDays_length|].
  split; [intros day; apply horizonDays_In|].
  split; [intros c Hc; by apply candidate_day in Hc as [? _]|].
  split.
  { intros s e Hs. apply search_result_inv in Hs as (m & Hdur & _ & Hin & Hadm).
    split; [done|]. by exists m. }
  split.
  - intros durationMin Hdur.
    unfold found. rewrite (findNextAvailableSlot_spec _ _ _ _ durationMin) by done.
    unfold specSearch. fold horizon.
    destruct (find _ _) as [c|] eqn:Hf; simpl.
    + split; [done|]. intros Hall. apply find_some in Hf as [Hin Hadm].
      rewrite (Hall c Hin) in Hadm. done.
    + split; [|done]. intros _. by apply find_none.
  - intros req Hne Hst Hnone. unfold postBook.
    apply String.eqb_neq in Hne. rewrite Hne, Hst.
    assert (forall a b : bool, (a || b || a) = a || b) as Hor by (by intros [] []).
    replace (includes (normType (req_serviceType req)) SAME_DAY_LABEL
             || String.eqb (normType (req_serviceType req)) SAME_DAY_LABEL
             || includes (normType (req_serviceType req)) (toLowerCase SAME_DAY_LABEL))
      with (includes (normType (req_serviceType req)) SAME_DAY_LABEL
            || String.eqb (normType (req_serviceType req)) SAME_DAY_LABEL)
      by (symmetry; apply Hor).
    destruct (String.eqb (normType (req_serviceType req)) SAME_DAY_LABEL) eqn:Heq.
    + apply String.eqb_eq in Heq. rewrite Heq in *. rewrite orb_true_r.
      change (includes SAME_DAY_LABEL SAME_DAY_LABEL) with true in Hnone.
      by rewrite Hnone.
    + rewrite orb_false_r. by rewrite Hnone.
Qed.

Lemma C8_bounded_horizon_witness :
  postBook (plusHM MON 23 0) emptyStore
    (mkBookRequest "אישור כניסה קבוע" Absent ∅ None false)
  = (Conflict (Some MSG_NO_AVAILABILITY), emptyStore)
  /\ postBook exNow emptyStore
       (mkBookRequest "kidud" Absent (<["sodi" := JNum 19]> ∅) None false)
     = (Conflict (Some MSG_NO_AVAILABILITY), emptyStore).
Proof.
  split.
  - apply (C8_bounded_horizon emptyStore (plusHM MON 23 0) "אישור כניסה קבוע" ∅
             (plusHM MON 23 0) true 30); [discriminate | reflexivity |].
    vm_compute. reflexivity.
  - apply (C8_bounded_horizon emptyStore exNow "kidud" (<["sodi" := JNum 19]> ∅)
             exNow false 30); [discriminate | reflexivity |].
    vm_compute. reflexivity.
Defined.



(** ** Candidates come in chronological order *)

Lemma base_offsets_sorted : StronglySorted Z.lt (map start (generateSlotsForDay 0)).
Proof. apply (bool_decide_unpack _). vm_compute. exact I. Qed.

Lemma sorted_shift (k : Z) (l : list Z) :
  StronglySorted Z.lt l -> StronglySorted Z.lt (map (fun off => off + k) l).
Proof.
  induction 1 as [|a l Hl IH Ha]; simpl; constructor; [done|].
  apply Forall_forall. intros x Hx. apply list_elem_of_In, in_map_iff in Hx as (y & <- & Hy).
  rewrite Forall_forall in Ha. apply list_elem_of_In, Ha in Hy. lia.
Qed.

Lemma days_sorted (day : Z) (a n : nat) :
  StronglySorted Z.lt (map (fun i => plusDays day (Z.of_nat i)) (seq a n)).
Proof.
  revert a. induction n as [|n IH]; intros a; simpl; constructor; [apply IH|].
  apply Forall_forall. intros x Hx. apply list_elem_of_In, in_map_iff in Hx as (i & <- & Hi).
  apply in_seq in Hi. unfold plusDays. rewrite MS_PER_DAY_val. lia.
Qed.

Lemma horizonDays_sorted (fromDT : Z) (sameDayOnly : bool) (maxDays : Z) :
  StronglySorted Z.lt (horizonDays fromDT sameDayOnly maxDays).
Proof.
  unfold horizonDays. destruct sameDayOnly; [|apply days_sorted].
  destruct (Z.to_nat (maxDays + 1)); simpl; repeat constructor.
Qed.

Lemma candidates_sorted (days : list Z) :
  StronglySorted Z.lt days ->
  (forall d, In d days -> d mod MS_PER_DAY = 0) ->
  StronglySorted Z.lt (candidates days).
Proof.
  induction 1 as [|d ds Hds IH Hd]; intros Hmod; [constructor|].
  rewrite candidates_cons. apply StronglySorted_app_2.
  - intros x y Hx Hy. apply list_elem_of_In in Hx, Hy.
    apply candidates_In in Hy as (d' & off' & Hd' & _ & Hoff' & ->).
    apply base_offset_range in Hoff'.
    rewrite Forall_forall in Hd. pose proof (Hd d' (proj2 (list_elem_of_In _ _) Hd')) as Hlt.
    pose proof (Hmod d (or_introl eq_refl)) as Hm.
    pose proof (Hmod d' (or_intror Hd')) as Hm'.
    apply Z.mod_divide in Hm, Hm'; try (rewrite MS_PER_DAY_val; lia).
    destruct Hm as [q ->], Hm' as [q' ->].
    assert (x < q * MS_PER_DAY + MS_PER_DAY) as Hxlt.
    { destruct (isWeekend (q * MS_PER_DAY)); [done|].
      rewrite starts_of_day in Hx. apply in_map_iff in Hx as (off & <- & Hoff).
      apply base_offset_range in Hoff. lia. }
    rewrite MS_PER_DAY_val in *. lia.
  - destruct (isWeekend d); [constructor|].
    rewrite starts_of_day. apply sorted_shift, base_offsets_sorted.
  - apply IH. intros d' Hd'. apply Hmod. by right.
Qed.

Lemma horizon_candidates_sorted (fromDT : Z) (sameDayOnly : bool) (maxDays : Z) :
  StronglySorted Z.lt (candidates (horizonDays fromDT sameDayOnly maxDays)).
Proof.
  apply candidates_sorted; [apply horizonDays_sorted|].
  intros d Hd. apply horizonDays_In in Hd as (i & _ & _ & ->).
  apply plusDays_mod, startOfDay_mod.
Qed.

Lemma find_sorted_first (f : Z -> bool) (l : list Z) (s c : Z) :
  StronglySorted Z.lt l -> find f l = Some s -> In c l -> f c = true -> s <= c.
Proof.
  induction 1 as [|a l Hl IH Ha]; simpl; [done|].
  intros Hf Hin Hc. destruct (f a) eqn:Hfa.
  - injection Hf as <-. destruct Hin as [<-|Hin]; [lia|].
    rewrite Forall_forall in Ha. apply list_elem_of_In, Ha in Hin. lia.
  - destruct Hin as [<-|Hin]; [congruence|]. by apply IH.
Qed.

Lemma postBook_auto (now : Z) (db : Store) (req : BookRequest) :
  req_serviceType req <> EmptyString ->
  req_startTime req = Absent ->
  postBook now db req
  = match findNextAvailableSlot db now (req_serviceType req) (req_details req) now
            (includes (normType (req_serviceType req)) SAME_DAY_LABEL) 30 with
    | Thrown => (ServerError MSG_INTERNAL, db)
    | Returned None => (Conflict (Some MSG_NO_AVAILABILITY), db)
    | Returned (Some (st, en)) =>
        (Booked MSG_ASSIGNED (lastID db + 1) st en,
         insertRow db (req_serviceType req) (req_details req) st en now
           (phoneOrNull (req_phone req)) (req_done req))
    end.
Proof.
  intros Hne Hst. unfold postBook.
  apply String.eqb_neq in Hne. rewrite Hne, Hst.
  assert (includes (normType (req_serviceType req)) SAME_DAY_LABEL
          || String.eqb (normType (req_serviceType req)) SAME_DAY_LABEL
          || includes (normType (req_serviceType req)) (toLowerCase SAME_DAY_LABEL)
          = includes (normType (req_serviceType req)) SAME_DAY_LABEL) as ->.
  { change (toLowerCase SAME_DAY_LABEL) with SAME_DAY_LABEL.
    destruct (String.eqb (normType (req_serviceType req)) SAME_DAY_LABEL) eqn:Heq.
    - apply String.eqb_eq in Heq. rewrite Heq. reflexivity.
    - by destruct (includes _ _). }
  reflexivity.
Qed.

(** ** A working day is never more than three days away *)

Lemma weekday_plusDays (day i : Z) :
  day mod MS_PER_DAY = 0 ->
  weekday (plusDays day i) = ((day / MS_PER_DAY) mod 7 + i) mod 7 + 1.
Proof.
  intros Hm. unfold weekday, plusDays.
  rewrite Z.div_add by (rewrite MS_PER_DAY_val; lia).
  by rewrite Z.add_mod_idemp_l by lia.
Qed.

Lemma working_day_soon (day : Z) :
  day mod MS_PER_DAY = 0 ->
  exists i, 1 <= i <= 3 /\ isWeekend (plusDays day i) = false.
Proof.
  intros Hm.
  pose proof (Z.mod_pos_bound (day / MS_PER_DAY) 7 ltac:(lia)) as Hr.
  assert (forall i, isWeekend (plusDays day i)
                    = (((day / MS_PER_DAY) mod 7 + i) mod 7 + 1 =? 5)
                      || (((day / MS_PER_DAY) mod 7 + i) mod 7 + 1 =? 6)) as Hw.
  { intros i. unfold isWeekend. by rewrite weekday_plusDays. }
  set (r := (day / MS_PER_DAY) mod 7) in *.
  assert (r = 0 \/ r = 1 \/ r = 2 \/ r = 3 \/ r = 4 \/ r = 5 \/ r = 6) as Hcases by lia.
  destruct Hcases as [H|[H|[H|[H|[H|[H|H]]]]]].
  - exists 1. split; [lia|]. rewrite Hw, H. reflexivity.
  - exists 1. split; [lia|]. rewrite Hw, H. reflexivity.
  - exists 1. split; [lia|]. rewrite Hw, H. reflexivity.
  - exists 3. split; [lia|]. rewrite Hw, H. reflexivity.
  - exists 2. split; [lia|]. rewrite Hw, H. reflexivity.
  - exists 1. split; [lia|]. rewrite Hw, H. reflexivity.
  - exists 1. split; [lia|]. rewrite Hw, H. reflexivity.
Qed.

Lemma admissible_empty (serviceType : string) (details : Details) (durationMin now st : Z) :
  admissible emptyStore serviceType details durationMin now st
  = negb ((st <? now) && hasSameDay st now)
    && fitsWithinBlock st (plusMinutes st durationMin).
Proof. unfold admissible. rewrite checkConflicts_empty. apply andb_true_r. Qed.

Lemma candidate_other_day (day0 i off : Z) :
  day0 mod MS_PER_DAY = 0 -> 0 <= off < MS_PER_DAY ->
  startOfDay (off + plusDays day0 i) = plusDays day0 i.
Proof.
  intros Hm Ho. rewrite Z.add_comm. apply startOfDay_offset; [|done].
  by apply plusDays_mod.
Qed.

Lemma first_slot_fits (day durationMin : Z) :
  day mod MS_PER_DAY = 0 -> durationMin <= 180 ->
  fitsWithinBlock (plusHM 0 8 30 + day) (plusMinutes (plusHM 0 8 30 + day) durationMin) = true.
Proof.
  intros Hm Hd. apply fitsWithinBlock_spec. exists (mkBlock 8 30 11 30).
  split; [by left|].
  rewrite Z.add_comm, startOfDay_offset by (done || (vm_compute; split; congruence)).
  simpl. unfold plusMinutes, plusHM, MS_PER_HOUR, MS_PER_MIN. lia.
Qed.

(** From the day of [now], a search that looks three or more days ahead
    reaches a candidate: the first slot of the next working day. *)
Lemma reached_within_three_days (now maxDays : Z) :
  3 <= maxDays ->
  existsb (reached now) (candidates (horizonDays now false maxDays)) = true.
Proof.
  intros Hmax. pose proof (startOfDay_mod now) as Hm0.
  destruct (working_day_soon _ Hm0) as (i & Hi & Hwi).
  apply existsb_exists. exists (plusHM 0 8 30 + plusDays (startOfDay now) i). split.
  - apply candidates_In. exists (plusDays (startOfDay now) i), (plusHM 0 8 30).
    split; [|split; [done|split; [|done]]].
    + apply horizonDays_In. exists i. split; [lia|]. split; [|done]. congruence.
    + vm_compute. by left.
  - unfold reached. apply negb_true_iff, andb_false_iff. right. unfold hasSameDay.
    apply Z.eqb_neq.
    rewrite candidate_other_day by (done || (vm_compute; split; congruence)).
    unfold plusDays. rewrite MS_PER_DAY_val. lia.
Qed.

(** C6: an automatic booking under a service type that names a property every
    object inherits ([constructor], [toString], [__proto__] and the like) is
    given no slot, whatever the table and the clock: the lookup of the
    duration finds the inherited property, the search throws when it adds it
    to the first candidate it reaches, and the request is answered with the
    internal error of the [catch]; nothing is stored. *)
Theorem C6_auto_inherited_label (now : Z) (db : Store) (req : BookRequest) :
  inheritedKey (req_serviceType req) = true ->
  req_startTime req = Absent ->
  findNextAvailableSlot db now (req_serviceType req) (req_details req) now false 30 = Thrown
  /\ postBook now db req = (ServerError MSG_INTERNAL, db).
Proof.
  intros Hk Hst.
  destruct (inherited_label _ (req_details req) Hk) as (Hne & _ & _ & Hdur & Hsame).
  apply orb_false_iff in Hsame as [Hsame _]. apply orb_false_iff in Hsame as [Hsame _].
  assert (findNextAvailableSlot db now (req_serviceType req) (req_details req) now false 30
          = Thrown) as Hthrown.
  { rewrite findNextAvailableSlot_not_a_number by done.
    by rewrite reached_within_three_days by lia. }
  split; [done|].
  rewrite postBook_auto by done. by rewrite Hsame, Hthrown.
Qed.

Lemma C6_auto_inherited_label_witness :
  postBook exNow emptyStore (mkBookRequest "constructor" Absent ∅ None false)
  = (ServerError MSG_INTERNAL, emptyStore).
Proof.
  apply (C6_auto_inherited_label exNow emptyStore
           (mkBookRequest "constructor" Absent ∅ None false) eq_refl eq_refl).
Defined.

(** X22: for a service type whose duration is a number of minutes: on an empty
    table and with the clock at [now], whatever the forward search returns is
    an admissible candidate of the horizon that starts today and no admissible
    candidate of the horizon starts earlier; it lies on the current day or on
    the first working day after it; the interval returned is as long as the
    duration.  When the search is not confined to the same day, looks at least
    three days ahead and the duration fits the morning block, it does return a
    slot.  Run again from the empty table at the same [now], a request of the
    same service type and details is given the same slot. *)
Theorem auto_first_admissible (now : Z) (serviceType : string) (details : Details)
    (durationMin : Z) (sameDayOnly : bool) (maxDays : Z) :
  computeDuration serviceType details = Minutes durationMin ->
  let horizon := horizonDays now sameDayOnly maxDays in
  let found :=
    findNextAvailableSlot emptyStore now serviceType details now sameDayOnly maxDays in
  (forall s e, found = Returned (Some (s, e)) ->
     e = plusMinutes s durationMin
     /\ In s (candidates horizon)
     /\ admissible emptyStore serviceType details durationMin now s = true
     /\ (forall c, In c (candidates horizon) ->
           admissible emptyStore serviceType details durationMin now c = true -> s <= c)
     /\ exists j, 0 <= j <= maxDays
          /\ startOfDay s = plusDays (startOfDay now) j
          /\ forall i, 0 < i < j -> isWeekend (plusDays (startOfDay now) i) = true)
  /\ (sameDayOnly = false -> 3 <= maxDays -> durationMin <= 180 ->
      exists s e, found = Returned (Some (s, e)))
  /\ (forall req req',
        req_serviceType req = serviceType -> req_serviceType req' = serviceType ->
        req_details req = details -> req_details req' = details ->
        req_startTime req = Absent -> req_startTime req' = Absent ->
        fst (postBook now emptyStore req) = fst (postBook now emptyStore req'))
  /\ (forall req s e,
        req_serviceType req = serviceType -> req_details req = details ->
        serviceType <> EmptyString -> req_startTime req = Absent ->
        sameDayOnly = includes (normType serviceType) SAME_DAY_LABEL -> maxDays = 30 ->
        found = Returned (Some (s, e)) ->
        fst (postBook now emptyStore req) = Booked MSG_ASSIGNED 1 s e).
Proof.
  intros Hdm horizon found.
  pose proof (horizon_candidates_sorted now sameDayOnly maxDays) as Hsorted.
  fold horizon in Hsorted.
  pose proof (startOfDay_mod now) as Hm0.
  split; [|split; [|split]].
  - intros s e Hs.
    pose proof (search_result_inv _ _ _ _ _ _ _ _ _ Hs) as (m & Hm & He & Hin & Hadm).
    assert (m = durationMin) as -> by congruence.
    fold horizon in Hin.
    assert (forall c, In c (candidates horizon) ->
              admissible emptyStore serviceType details durationMin now c = true -> s <= c)
      as Hmin.
    { intros c Hc Hcadm. unfold found in Hs.
      rewrite (findNextAvailableSlot_spec _ _ _ _ durationMin) in Hs by done.
      unfold specSearch in Hs. fold horizon in Hs.
      destruct (find _ _) as [s'|] eqn:Hf; simpl in Hs; [|done].
      injection Hs as <- _.
      by apply (find_sorted_first _ _ _ _ Hsorted Hf Hc). }
    split; [done|]. split; [done|]. split; [done|]. split; [done|].
    pose proof Hin as Hshape.
    apply candidates_In in Hshape as (day & off & Hday & Hwk & Hoff & Hseq).
    apply horizonDays_In in Hday as (j & Hj & Hsdo & ->).
    pose proof (base_offset_range _ Hoff) as Hrange.
    exists j. split; [done|]. split.
    { rewrite Hseq. by apply candidate_other_day. }
    intros i Hi. destruct (isWeekend (plusDays (startOfDay now) i)) eqn:Hwi; [done|].
    exfalso.
    set (c := off + plusDays (startOfDay now) i).
    assert (In c (candidates horizon)) as Hc.
    { apply candidates_In. exists (plusDays (startOfDay now) i), off.
      split; [|done]. apply horizonDays_In. exists i. split; [lia|]. split; [|done].
      intros Hsd. specialize (Hsdo Hsd). lia. }
    assert (c = s + (i - j) * MS_PER_DAY) as Hcs
      by (unfold c; rewrite Hseq; unfold plusDays; lia).
    assert (admissible emptyStore serviceType details durationMin now c = true) as Hcadm.
    { rewrite admissible_empty in Hadm |- *.
      apply andb_true_iff in Hadm as [_ Hfit]. apply andb_true_iff. split.
      - apply negb_true_iff, andb_false_iff. right. unfold hasSameDay.
        apply Z.eqb_neq. unfold c. rewrite candidate_other_day by done.
        unfold plusDays. rewrite MS_PER_DAY_val. lia.
      - rewrite Hcs.
        replace (plusMinutes (s + (i - j) * MS_PER_DAY) durationMin)
          with (plusMinutes s durationMin + (i - j) * MS_PER_DAY)
          by (unfold plusMinutes; lia).
        rewrite fitsWithinBlock_shift; [done|].
        apply Z.mod_mul. rewrite MS_PER_DAY_val. lia. }
    specialize (Hmin c Hc Hcadm). rewrite MS_PER_DAY_val in Hcs. lia.
  - intros Hsdo Hmax Hdur.
    destruct (working_day_soon _ Hm0) as (i & Hi & Hwi).
    set (c := plusHM 0 8 30 + plusDays (startOfDay now) i).
    assert (In c (candidates horizon)) as Hc.
    { apply candidates_In. exists (plusDays (startOfDay now) i), (plusHM 0 8 30).
      split; [|split; [done|split; [|done]]].
      - apply horizonDays_In. exists i. split; [lia|]. split; [|done]. congruence.
      - vm_compute. by left. }
    assert (admissible emptyStore serviceType details durationMin now c = true) as Hcadm.
    { rewrite admissible_empty. apply andb_true_iff. split.
      - apply negb_true_iff, andb_false_iff. right. unfold hasSameDay.
        apply Z.eqb_neq. unfold c.
        rewrite candidate_other_day by (done || (vm_compute; split; congruence)).
        unfold plusDays. rewrite MS_PER_DAY_val. lia.
      - apply first_slot_fits; [|done]. by apply plusDays_mod. }
    unfold found. rewrite (findNextAvailableSlot_spec _ _ _ _ durationMin) by done.
    unfold specSearch. fold horizon.
    destruct (find _ _) as [s|] eqn:Hf; simpl; [by eexists _, _|].
    apply find_none with (x := c) in Hf; [congruence|done].
  - intros req req' Hst Hst' Hd Hd' Ha Ha'.
    destruct (String.eqb_spec serviceType EmptyString) as [He|Hne].
    + unfold postBook. rewrite Hst, Hst', He. reflexivity.
    + rewrite !postBook_auto by congruence.
      rewrite Hst, Hst', Hd, Hd'.
      destruct (findNextAvailableSlot emptyStore now serviceType details now
                  (includes (normType serviceType) SAME_DAY_LABEL) 30) as [[[s e]|]|];
        reflexivity.
  - intros req s e Hst Hd Hne Ha Hsdo Hmax Hs.
    rewrite postBook_auto by congruence. rewrite Hst, Hd.
    unfold found in Hs. rewrite Hsdo, Hmax in Hs. by rewrite Hs.
Qed.

Lemma auto_first_admissible_witness :
  exists s e,
    findNextAvailableSlot emptyStore exNow "chul" ∅ exNow false 30 = Returned (Some (s, e))
    /\ e = plusMinutes s 5
    /\ fst (postBook exNow emptyStore (mkBookRequest "chul" Absent ∅ None false))
       = Booked MSG_ASSIGNED 1 s e.
Proof.
  pose proof (auto_first_admissible exNow "chul" ∅ 5 false 30 eq_refl)
    as (H1 & H2 & _ & H4).
  destruct (H2 eq_refl ltac:(discriminate) ltac:(discriminate)) as (s & e & Hs).
  exists s, e. split; [exact Hs|]. split.
  - by destruct (H1 s e Hs) as (He & _).
  - apply H4; try reflexivity; [discriminate | exact Hs].
Defined.

(** * Further properties of the code *)

(** ** Durations of every service type *)

Lemma ownGet_In (m : list (string * Z)) (k : string) (v : Z) :
  ownGet m k = Some v -> In (k, v) m.
Proof.
  induction m as [|[k' v'] m IH]; simpl; [done|].
  destruct (String.eqb k' k) eqn:E.
  - apply String.eqb_eq in E. intros [= <-]. left. by subst.
  - intros H. right. by apply IH.
Qed.

Lemma mapScan_In (m : list (string * Z)) (low : string) (v : Z) :
  mapScan m low = Some v -> exists k, In (k, v) m /\ toLowerCase k = low.
Proof.
  induction m as [|[k' v'] m IH]; simpl; [done|].
  destruct (String.eqb (toLowerCase k') low) eqn:E.
  - apply String.eqb_eq in E. intros [= <-]. exists k'. split; [by left|done].
  - intros H. destruct (IH H) as (k & Hin & Hk). exists k. split; [by right|done].
Qed.

Lemma durationMap_values (k : string) (v : Z) :
  In (k, v) durationMap -> v = 5 \/ v = 15.
Proof.
  intros H.
  assert (In v (map snd durationMap)) as Hv by (apply in_map_iff; by exists (k, v)).
  simpl in Hv. lia.
Qed.

Lemma ownGet_then_scan (s : string) (v : Z) :
  ownGet durationMap s = Some v -> mapScan durationMap (normType s) = Some v.
Proof.
  intros H. apply ownGet_In in H.
  unfold durationMap in H. simpl in H.
  repeat (destruct H as [[= <- <-]|H]; [vm_compute; reflexivity|]).
  done.
Qed.

(** The exact-label lookup changes the result only for a label that names an
    inherited property. *)
Lemma computeDuration_by_normType (serviceType : string) (details : Details) :
  computeDuration serviceType details
  = if isKidud (normType serviceType)
    then Minutes (Z.max (Z.max (numS details * 10) (numA details * 10)) 10)
    else if inheritedKey serviceType then NotANumber
    else scanOrDefault (normType serviceType).
Proof.
  destruct (isKidud (normType serviceType)) eqn:Hk; [by apply computeDuration_kidud|].
  destruct (inheritedKey serviceType) eqn:Hi.
  { by destruct (inherited_label serviceType details Hi) as (_ & _ & _ & H & _). }
  unfold computeDuration, mapGet. rewrite Hk, Hi.
  destruct (ownGet durationMap serviceType) as [v|] eqn:Hg; [|done].
  unfold scanOrDefault. rewrite (ownGet_then_scan _ _ Hg).
  apply ownGet_In, durationMap_values in Hg. by destruct Hg as [-> | ->].
Qed.

Lemma scanOrDefault_values (low : string) :
  scanOrDefault low = Minutes 5 \/ scanOrDefault low = Minutes 15.
Proof.
  unfold scanOrDefault. destruct (mapScan _ _) as [v|] eqn:Hs; [|by left].
  apply mapScan_In in Hs as (k & Hin & _).
  apply durationMap_values in Hin. by destruct Hin as [-> | ->]; [left | right].
Qed.

Lemma duration_minutes (serviceType : string) (details : Details) (m : Z) :
  computeDuration serviceType details = Minutes m ->
  5 <= m /\ m mod 5 = 0 /\ (isKidud (normType serviceType) = false -> m = 5 \/ m = 15).
Proof.
  rewrite computeDuration_by_normType.
  destruct (isKidud (normType serviceType)).
  - intros [= <-]. split; [lia|]. split; [|done].
    assert (exists q, Z.max (Z.max (numS details * 10) (numA details * 10)) 10 = q * 5)
      as [q ->] by (exists (Z.max (Z.max (numS details * 2) (numA details * 2)) 2); lia).
    apply Z.mod_mul. lia.
  - destruct (inheritedKey serviceType); [done|].
    destruct (scanOrDefault_values (normType serviceType)) as [-> | ->];
      intros [= <-]; (split; [lia|]); (split; [done|]); intros _; [by left | by right].
Qed.


(** X2: for labels that name no inherited property, the duration depends on
    the service type only through its trimmed, lower-cased form: two such
    labels with the same normal form get the same duration, so the exact-label
    lookup does not change the result for them. *)
Theorem duration_normalised_type (st1 st2 : string) (details : Details) :
  inheritedKey st1 = false ->
  inheritedKey st2 = false ->
  normType st1 = normType st2 ->
  computeDuration st1 details = computeDuration st2 details.
Proof. intros H1 H2 H. rewrite !computeDuration_by_normType. by rewrite H, H1, H2. Qed.

Lemma duration_normalised_type_witness :
  computeDuration "  HOTZLA " ∅ = computeDuration "hotzla" ∅.
Proof. apply duration_normalised_type; reflexivity. Defined.

(** ** The grid of candidate slots *)

Lemma slotLoop_In (fuel : nat) (current blkEnd : Z) (s : Slot) :
  (slotFuel current blkEnd <= fuel)%nat ->
  In s (slotLoop fuel current blkEnd)
  <-> exists k, 0 <= k /\ start s = current + k * (SLOT_STEP_MIN * MS_PER_MIN)
      /\ start s <= minusMinutes blkEnd 1 /\ blockEnd s = blkEnd.
Proof.
  revert current. induction fuel as [|fuel IH]; intros current Hfuel.
  - simpl. split; [done|]. intros (k & Hk & Hs & Hle & _).
    unfold slotFuel, minusMinutes, SLOT_STEP_MIN, MS_PER_MIN in *.
    destruct (Z.lt_ge_cases (blkEnd - current) 0) as [|Hge]; [lia|].
    pose proof (Z.div_pos (blkEnd - current) (5 * 60000) Hge ltac:(lia)). lia.
  - simpl. destruct (current <=? minusMinutes blkEnd 1) eqn:Hc.
    + apply Z.leb_le in Hc.
      assert (slotFuel (plusMinutes current SLOT_STEP_MIN) blkEnd <= fuel)%nat as Hfuel'.
      { revert Hfuel Hc. unfold slotFuel, plusMinutes, minusMinutes, SLOT_STEP_MIN, MS_PER_MIN.
        intros Hfuel Hc.
        replace (blkEnd - (current + 5 * 60000))
          with ((blkEnd - current) + (-1) * (5 * 60000)) by lia.
        rewrite Z.div_add by lia.
        pose proof (Z.div_pos (blkEnd - current) (5 * 60000) ltac:(lia) ltac:(lia)). lia. }
      simpl. rewrite (IH _ Hfuel'). split.
      * intros [<-|(k & Hk & Hs & Hle & He)].
        -- exists 0. simpl. repeat split; [lia|lia|done].
        -- exists (k + 1). unfold plusMinutes in Hs. repeat split; [lia|lia|done|done].
      * intros (k & Hk & Hs & Hle & He).
        destruct (Z.eq_dec k 0) as [->|Hne].
        -- left. destruct s as [st be]. simpl in *. f_equal; lia.
        -- right. exists (k - 1). unfold plusMinutes. repeat split; [lia|lia|done|done].
    + apply Z.leb_gt in Hc. split; [done|]. intros (k & Hk & Hs & Hle & _).
      unfold SLOT_STEP_MIN, MS_PER_MIN in *. lia.
Qed.

Lemma generateSlotsIn_In (blocks : list Block) (day : Z) (s : Slot) :
  In s (generateSlotsIn blocks day)
  <-> exists blk k, In blk blocks /\ 0 <= k
      /\ start s = plusMinutes (plusHM day (bsH blk) (bsM blk)) (k * SLOT_STEP_MIN)
      /\ plusMinutes (start s) 1 <= plusHM day (beH blk) (beM blk)
      /\ blockEnd s = plusHM day (beH blk) (beM blk).
Proof.
  unfold generateSlotsIn. rewrite in_flat_map. unfold blockSlots.
  split.
  - intros (blk & Hblk & Hin). apply slotLoop_In in Hin; [|lia].
    destruct Hin as (k & Hk & Hs & Hle & He). exists blk, k.
    unfold plusMinutes, minusMinutes in *. repeat split; [done|done|lia|lia|done].
  - intros (blk & k & Hblk & Hk & Hs & Hle & He). exists blk. split; [done|].
    apply slotLoop_In; [lia|]. exists k.
    unfold plusMinutes, minusMinutes in *. repeat split; [done|lia|lia|done].
Qed.

(** X3: for any list of blocks, the slots generated for a day are exactly the
    starts on the five-minute grid of a block, from the start of the block up
    to one minute before its end, each carrying the end of its block. *)
Theorem slots_are_the_grid (blocks : list Block) (day : Z) (s : Slot) :
  In s (generateSlotsIn blocks day)
  <-> exists blk k, In blk blocks /\ 0 <= k
      /\ start s = plusMinutes (plusHM day (bsH blk) (bsM blk)) (k * SLOT_STEP_MIN)
      /\ plusMinutes (start s) 1 <= plusHM day (beH blk) (beM blk)
      /\ blockEnd s = plusHM day (beH blk) (beM blk).
Proof. apply generateSlotsIn_In. Qed.

Lemma working_block_cases (blk : Block) :
  In blk WORKING_BLOCKS ->
  blk = mkBlock 8 30 11 30 \/ blk = mkBlock 16 30 18 30 \/ blk = mkBlock 20 30 22 0.
Proof. simpl. intuition. Qed.

Lemma fits_own_block (day durationMin : Z) (s : Slot) :
  day mod MS_PER_DAY = 0 ->
  0 <= durationMin ->
  In s (generateSlotsForDay day) ->
  fitsWithinBlock (start s) (plusMinutes (start s) durationMin)
  = (plusMinutes (start s) durationMin <=? blockEnd s).
Proof.
  intros Hday Hdur Hin.
  apply generateSlotsIn_In in Hin as (blk & k & Hblk & Hk & Hs & Hle & He).
  assert (startOfDay (start s) = day) as Hsod.
  { replace (start s) with (day + (start s - day)) by lia.
    apply startOfDay_offset; [done|].
    apply working_block_cases in Hblk as [-> | [-> | ->]];
      revert Hs Hle; unfold plusMinutes, plusHM, MS_PER_DAY, MS_PER_HOUR, MS_PER_MIN,
        SLOT_STEP_MIN; simpl; lia. }
  apply eq_true_iff_eq. rewrite fitsWithinBlock_spec, Z.leb_le, Hsod, He. split.
  - intros (blk' & Hblk' & Hlo & Hhi).
    apply working_block_cases in Hblk as [-> | [-> | ->]];
      apply working_block_cases in Hblk' as [-> | [-> | ->]];
      revert Hs Hle Hlo Hhi;
      unfold plusMinutes, plusHM, MS_PER_HOUR, MS_PER_MIN, SLOT_STEP_MIN; simpl; lia.
  - intros Hend. exists blk. split; [done|]. split; [|done].
    revert Hs. unfold plusMinutes, plusHM, MS_PER_HOUR, MS_PER_MIN, SLOT_STEP_MIN. lia.
Qed.

(** X4: with the configured blocks, a slot generated for a day fits with a
    duration that is not negative exactly when it ends by the end of the block
    the slot carries: no other block can take it. *)
Theorem slot_block_end_decides_fit (day durationMin : Z) (s : Slot) :
  day mod MS_PER_DAY = 0 ->
  0 <= durationMin ->
  In s (generateSlotsForDay day) ->
  fitsWithinBlock (start s) (plusMinutes (start s) durationMin)
  = (plusMinutes (start s) durationMin <=? blockEnd s).
Proof. apply fits_own_block. Qed.

Lemma slot_block_end_decides_fit_witness :
  fitsWithinBlock (plusHM MON 11 20) (plusMinutes (plusHM MON 11 20) 15) = false.
Proof.
  apply (slot_block_end_decides_fit MON 15 (mkSlot (plusHM MON 11 20) (plusHM MON 11 30)));
    [reflexivity | lia | vm_compute; tauto].
Defined.

(** ** What a run of the server keeps true *)

Lemma postBook_cases (now : Z) (db : Store) (req : BookRequest) :
  (snd (postBook now db req) = db
   /\ forall m id s e, fst (postBook now db req) <> Booked m id s e)
  \/ exists m s e,
       postBook now db req
       = (Booked m (lastID db + 1) s e,
          insertRow db (req_serviceType req) (req_details req) s e now
            (phoneOrNull (req_phone req)) (req_done req))
       /\ fitsWithinBlock s e = true
       /\ (exists duration,
             computeDuration (req_serviceType req) (req_details req) = Minutes duration
             /\ e = plusMinutes s duration)
       /\ ok (checkConflicts db s e (req_serviceType req) (req_details req)) = true.
Proof.
  destruct (String.eqb_spec (req_serviceType req) EmptyString) as [He|Hne].
  { left. unfold postBook. rewrite He. simpl. done. }
  destruct (req_startTime req) as [| |t] eqn:Hst.
  - rewrite (postBook_auto now db req Hne Hst).
    destruct (findNextAvailableSlot _ _ _ _ _ _ _) as [[[s e]|]|] eqn:Hf;
      [|left; done|left; done].
    right. exists MSG_ASSIGNED, s, e. split; [done|].
    apply search_result_inv in Hf as (m & Hm & He & _ & Hadm).
    unfold admissible in Hadm. rewrite <- He in Hadm.
    apply andb_true_iff in Hadm as [Hadm Hok]. apply andb_true_iff in Hadm as [_ Hfit].
    split; [done|]. split; [by exists m|done].
  - left. unfold postBook. apply String.eqb_neq in Hne. rewrite Hne, Hst. done.
  - destruct (computeDuration (req_serviceType req) (req_details req)) as [m|] eqn:Hm.
    + rewrite (postBook_explicit now db req t m Hne Hst Hm). cbv zeta.
      destruct (fitsWithinBlock _ _) eqn:Hfit; simpl; [|left; done].
      destruct (ok _) eqn:Hok; simpl; [|left; done].
      right. exists MSG_BOOKED, t, (plusMinutes t m).
      split; [done|]. split; [done|]. split; [by exists m|done].
    + left. by rewrite (postBook_explicit_throws now db req t Hne Hst Hm).
Qed.

Lemma serve_invariant (P : Store -> Prop) :
  P emptyStore ->
  (forall db r, P db -> P (handle db r)) ->
  forall reqs, P (serve reqs emptyStore).
Proof.
  intros H0 Hstep reqs. unfold serve.
  generalize dependent emptyStore. induction reqs as [|r reqs IH]; intros db Hdb; simpl;
    [done|]. apply IH. by apply Hstep.
Qed.

Lemma handle_cases (db : Store) (r : Request) :
  handle db r = db
  \/ (exists id, handle db r
        = mkStore (List.filter (fun x => negb (row_id x =? id)) (rows db)) (lastID db))
  \/ exists now st d s e p dn,
       handle db r = insertRow db st d s e now p dn
       /\ fitsWithinBlock s e = true
       /\ (exists duration, computeDuration st d = Minutes duration
                            /\ e = plusMinutes s duration)
       /\ ok (checkConflicts db s e st d) = true.
Proof.
  destruct r as [now req|id]; simpl.
  - destruct (postBook_cases now db req) as [[H _]|(m & s & e & H & Hfit & He & Hok)].
    + by left.
    + right. right. rewrite H. simpl.
      by exists now, (req_serviceType req), (req_details req), s, e,
                (phoneOrNull (req_phone req)), (req_done req).
  - right. left. by exists id.
Qed.

Lemma lastID_monotone (reqs : list Request) (db : Store) :
  lastID db <= lastID (serve reqs db).
Proof.
  unfold serve. revert db. induction reqs as [|r reqs IH]; intros db; simpl; [lia|].
  etrans; [|apply IH].
  destruct (handle_cases db r)
    as [->|[(id & ->)|(now & st & d & s & e & p & dn & -> & _)]]; simpl; lia.
Qed.

Lemma ids_bounded (reqs : list Request) :
  NoDup (map row_id (rows (serve reqs emptyStore)))
  /\ 0 <= lastID (serve reqs emptyStore)
  /\ forall r, In r (rows (serve reqs emptyStore)) ->
       0 < row_id r <= lastID (serve reqs emptyStore).
Proof.
  apply (serve_invariant (fun db =>
    NoDup (map row_id (rows db)) /\ 0 <= lastID db
    /\ forall r, In r (rows db) -> 0 < row_id r <= lastID db)).
  - split; [constructor|]. split; [done|]. intros r [].
  - intros db r (Hnd & Hpos & Hle).
    destruct (handle_cases db r)
      as [->|[(id & ->)|(now & st & d & s & e & p & dn & -> & _)]]; simpl.
    + done.
    + split; [|split; [done|]].
      * clear Hle. induction (rows db) as [|x l IH]; simpl; [constructor|].
        apply NoDup_cons in Hnd as [Hx Hl].
        destruct (negb (row_id x =? id)); simpl; [|by apply IH].
        apply NoDup_cons. split; [|by apply IH].
        intros Hin. apply Hx. apply list_elem_of_In in Hin. apply list_elem_of_In.
        apply in_map_iff in Hin as (y & Hy & Hin). apply filter_In in Hin as [Hin _].
        apply in_map_iff. by exists y.
      * intros x Hx. apply filter_In in Hx as [Hx _]. by apply Hle.
    + split; [|split; [lia|]].
      * rewrite map_app. simpl. apply NoDup_app. split; [done|]. split.
        -- intros i Hi Hi'. apply list_elem_of_In in Hi.
           apply in_map_iff in Hi as (y & <- & Hy). apply Hle in Hy.
           apply list_elem_of_In in Hi'. destruct Hi' as [Hi'|[]]. lia.
        -- apply NoDup_singleton.
      * intros x Hx. apply in_app_iff in Hx as [Hx|[<-|[]]]; simpl.
        -- apply Hle in Hx. lia.
        -- lia.
Qed.

(** X5: in every table a run of bookings and cancellations leads to, the ids
    are positive, pairwise different and at most the last id handed out; a new
    booking gets an id no stored row has, and any booking made later in the
    run, whatever was cancelled in between, gets a larger id. *)
Theorem ids_are_never_reused (reqs : list Request) :
  let db := serve reqs emptyStore in
  NoDup (map row_id (rows db))
  /\ (forall r, In r (rows db) -> 0 < row_id r <= lastID db)
  /\ (forall now req m id s e,
        fst (postBook now db req) = Booked m id s e ->
        (forall r, In r (rows db) -> row_id r <> id)
        /\ forall reqs' now' req' m' id' s' e',
             fst (postBook now' (serve reqs' (snd (postBook now db req))) req')
             = Booked m' id' s' e' ->
             id < id').
Proof.
  intros db.
  destruct (ids_bounded reqs) as (Hnd & Hpos & Hle). fold db in Hnd, Hpos, Hle.
  split; [done|]. split; [done|].
  intros now req m id s e Hb.
  destruct (postBook_cases now db req) as [[_ H]|(m' & s' & e' & H & _)].
  - by apply H in Hb.
  - rewrite H in Hb. simpl in Hb. injection Hb as <- <- <- <-.
    split; [intros r Hr; apply Hle in Hr; lia|].
    intros reqs' now' req' m'' id' s'' e'' Hb'.
    rewrite H in Hb'. simpl in Hb'.
    set (db1 := insertRow db (req_serviceType req) (req_details req) s' e' now
                  (phoneOrNull (req_phone req)) (req_done req)) in *.
    pose proof (lastID_monotone reqs' db1) as Hmono.
    destruct (postBook_cases now' (serve reqs' db1) req')
      as [[_ H']|(m3 & s3 & e3 & H' & _)].
    + by apply H' in Hb'.
    + rewrite H' in Hb'. simpl in Hb'. injection Hb' as _ <- _ _.
      simpl in Hmono. lia.
Qed.

(** X6: every booking found in the table after a run of bookings and
    cancellations lies inside one working block, has a service type and
    details whose duration is a number of minutes, lasts exactly that
    duration, and ends after it starts. *)
Theorem stored_intervals_are_valid (reqs : list Request) (r : Row) :
  In r (rows (serve reqs emptyStore)) ->
  fitsWithinBlock (row_startTime r) (row_endTime r) = true
  /\ (exists duration,
        computeDuration (row_serviceType r) (row_details r) = Minutes duration
        /\ row_endTime r = plusMinutes (row_startTime r) duration)
  /\ row_startTime r < row_endTime r.
Proof.
  revert r. apply (serve_invariant (fun db => forall r, In r (rows db) ->
    fitsWithinBlock (row_startTime r) (row_endTime r) = true
    /\ (exists duration,
          computeDuration (row_serviceType r) (row_details r) = Minutes duration
          /\ row_endTime r = plusMinutes (row_startTime r) duration)
    /\ row_startTime r < row_endTime r)).
  - intros r [].
  - intros db q Hdb r.
    destruct (handle_cases db q)
      as [->|[(id & ->)|(now & st & d & s & e & p & dn & -> & Hfit & (m & Hm & He) & _)]];
      simpl.
    + apply Hdb.
    + intros Hr. apply filter_In in Hr as [Hr _]. by apply Hdb.
    + intros Hr. apply in_app_iff in Hr as [Hr|[<-|[]]]; [by apply Hdb|]. simpl.
      split; [done|]. split; [by exists m|].
      pose proof (duration_minutes st d m Hm) as [Hd _].
      rewrite He. unfold plusMinutes, MS_PER_MIN. lia.
Qed.

Lemma stored_intervals_are_valid_witness :
  fitsWithinBlock (plusHM MON 8 30) (plusHM MON 8 35) = true.
Proof.
  apply (stored_intervals_are_valid [ReqBook exNow exReq]
           (mkRow 1 "chul" ∅ (plusHM MON 8 30) (plusHM MON 8 35) exNow None false)).
  vm_compute. by left.
Defined.

Lemma filter_length_le {A : Type} (f g : A -> bool) (l : list A) :
  (forall x, In x l -> f x = true -> g x = true) ->
  (length (List.filter f l) <= length (List.filter g l))%nat.
Proof.
  induction l as [|a l IH]; intros H; simpl; [done|].
  assert (length (List.filter f l) <= length (List.filter g l))%nat as IH'
    by (apply IH; intros x Hx; apply H; by right).
  destruct (f a) eqn:Hf.
  - rewrite (H a (or_introl eq_refl) Hf). simpl. lia.
  - destruct (g a); simpl; lia.
Qed.

Lemma filter_filter_length {A : Type} (f g : A -> bool) (l : list A) :
  (length (List.filter f (List.filter g l)) <= length (List.filter f l))%nat.
Proof.
  induction l as [|a l IH]; simpl; [done|].
  destruct (g a); simpl; destruct (f a); simpl; lia.
Qed.

Lemma covers_overlaps (t s e : Z) (r : Row) :
  s <= t < e -> covers t r = true -> overlaps s e r = true.
Proof.
  intros Ht Hc. unfold covers in Hc. apply andb_true_iff in Hc as [H1 H2].
  apply Z.leb_le in H1. apply Z.ltb_lt in H2. apply overlaps_spec. lia.
Qed.

(** X7: when every request is handled to its end before the next one begins,
    no instant is covered by more than two bookings in any table that a run of
    bookings and cancellations leads to. *)
Theorem never_three_at_once (reqs : list Request) (t : Z) :
  (length (List.filter (covers t) (rows (serve reqs emptyStore))) <= 2)%nat.
Proof.
  apply (serve_invariant (fun db =>
    (length (List.filter (covers t) (rows db)) <= 2)%nat)); [simpl; lia|].
  intros db q Hdb.
  destruct (handle_cases db q)
    as [->|[(id & ->)|(now & st & d & s & e & p & dn & -> & _ & _ & Hok)]]; simpl.
  - done.
  - etrans; [apply filter_filter_length|exact Hdb].
  - rewrite List.filter_app, length_app. simpl.
    destruct (covers t (mkRow (lastID db + 1) st d s e now p dn)) eqn:Hc; simpl; [|lia].
    rewrite checkConflicts_ok in Hok. apply andb_true_iff in Hok as [Hlen _].
    apply Nat.ltb_lt in Hlen.
    assert (s <= t < e) as Ht.
    { unfold covers in Hc. simpl in Hc. apply andb_true_iff in Hc as [H1 H2].
      apply Z.leb_le in H1. apply Z.ltb_lt in H2. lia. }
    pose proof (filter_length_le (covers t) (overlaps s e) (rows db)
                  (fun x _ => covers_overlaps t s e x Ht)) as Hle.
    unfold selectOverlapping in Hlen. lia.
Qed.



(** ** Two handlers at once *)

Lemma explicitQuery_inv (db : Store) (req : BookRequest) (s e : Z) :
  explicitQuery db req = Some (s, e) ->
  req_serviceType req <> EmptyString
  /\ req_startTime req = At s
  /\ (exists duration,
        computeDuration (req_serviceType req) (req_details req) = Minutes duration
        /\ e = plusMinutes s duration)
  /\ fitsWithinBlock s e = true
  /\ ok (checkConflicts db s e (req_serviceType req) (req_details req)) = true
  /\ s < e.
Proof.
  unfold explicitQuery.
  destruct (String.eqb_spec (req_serviceType req) EmptyString) as [|Hne]; [done|].
  destruct (req_startTime req) as [| |t]; [done|done|].
  destruct (computeDuration _ _) as [m|] eqn:Hm; simpl; [|done].
  destruct (fitsWithinBlock _ _) eqn:Hfit; simpl; [|done].
  destruct (ok _) eqn:Hok; simpl; [|done].
  intros [= <- <-]. split; [done|]. split; [done|]. split; [by exists m|].
  split; [done|]. split; [done|].
  pose proof (duration_minutes _ _ m Hm) as [Hd _].
  unfold plusMinutes, MS_PER_MIN. lia.
Qed.

(** Handled alone, an explicit booking is its query followed at once by its
    insert. *)
Lemma postBook_two_steps (now : Z) (db : Store) (req : BookRequest) (t : Z) :
  req_startTime req = At t ->
  snd (postBook now db req)
  = match explicitQuery db req with
    | Some slot => explicitInsert now db req slot
    | None => db
    end.
Proof.
  intros Hst. unfold postBook, explicitQuery. rewrite Hst.
  destruct (String.eqb _ _); [done|].
  destruct (plusDuration _ _) as [en|]; [|done].
  destruct (negb (fitsWithinBlock _ _)); [done|].
  by destruct (negb (ok _)).
Qed.

(** X23: when the queries of three explicit requests for the same interval are
    all answered on the same table before any of the three inserts runs, all three
    are stored and the start is covered by three more bookings than before:
    the cap of two holds for requests handled one after another only.  A query
    that runs after two of the inserts refuses the request.  For a coded entry
    that counts primary units, the rows stored by two such handlers clash. *)
Theorem overlapping_requests_race (now1 now2 now3 : Z) (db : Store) (req : BookRequest)
    (s e : Z) :
  explicitQuery db req = Some (s, e) ->
  let db1 := explicitInsert now1 db req (s, e) in
  let db2 := explicitInsert now2 db1 req (s, e) in
  let db3 := explicitInsert now3 db2 req (s, e) in
  length (List.filter (covers s) (rows db3))
  = (length (List.filter (covers s) (rows db)) + 3)%nat
  /\ snd (postBook now1 db req) = db1
  /\ explicitQuery db2 req = None
  /\ (isKidud (normType (req_serviceType req)) = true -> 0 < numS (req_details req) ->
      exists r1 r2, In r1 (rows db2) /\ In r2 (rows db2)
                    /\ row_id r1 <> row_id r2 /\ rowsClash r1 r2).
Proof.
  intros Hq db1 db2 db3.
  destruct (explicitQuery_inv _ _ _ _ Hq) as (Hne & Hst & (m & Hm & He) & Hfit & Hok & Hlt).
  assert (forall id now, covers s (mkRow id (req_serviceType req) (req_details req) s e now
                                     (phoneOrNull (req_phone req)) (req_done req)) = true)
    as Hcov.
  { intros id now. unfold covers. simpl. apply andb_true_iff.
    split; [apply Z.leb_le | apply Z.ltb_lt]; lia. }
  split; [|split; [|split]].
  - unfold db3, db2, db1, explicitInsert, insertRow. simpl.
    rewrite !List.filter_app, !length_app. simpl. rewrite !Hcov. simpl. lia.
  - by rewrite (postBook_two_steps now1 db req s Hst), Hq.
  - unfold explicitQuery. apply String.eqb_neq in Hne. rewrite Hne, Hst, Hm. simpl.
    rewrite <- He, Hfit. simpl.
    assert (ok (checkConflicts db2 s e (req_serviceType req) (req_details req)) = false)
      as ->; [|done].
    rewrite checkConflicts_ok. apply andb_false_iff. left. apply Nat.ltb_ge.
    unfold db2, db1, explicitInsert, insertRow, selectOverlapping. simpl.
    rewrite !List.filter_app, !length_app. simpl.
    assert (forall id now, overlaps s e (mkRow id (req_serviceType req) (req_details req) s e
                                           now (phoneOrNull (req_phone req)) (req_done req))
                           = true) as Hov.
    { intros id now. apply overlaps_spec. simpl. lia. }
    rewrite !Hov. simpl. lia.
  - intros Hk Hpos.
    exists (mkRow (lastID db + 1) (req_serviceType req) (req_details req) s e now1
              (phoneOrNull (req_phone req)) (req_done req)),
           (mkRow (lastID db + 1 + 1) (req_serviceType req) (req_details req) s e now2
              (phoneOrNull (req_phone req)) (req_done req)).
    split; [|split; [|split]].
    + unfold db2, db1, explicitInsert, insertRow. simpl.
      apply in_app_iff. left. apply in_app_iff. right. by left.
    + unfold db2, db1, explicitInsert, insertRow. simpl.
      apply in_app_iff. right. by left.
    + simpl. lia.
    + unfold rowsClash. simpl. repeat split; try done. by left.
Qed.

Lemma overlapping_requests_race_witness :
  length (List.filter (covers (plusHM MON 8 30))
            (rows (explicitInsert exNow
                     (explicitInsert exNow
                        (explicitInsert exNow emptyStore exReq
                           (plusHM MON 8 30, plusHM MON 8 35))
                        exReq (plusHM MON 8 30, plusHM MON 8 35))
                     exReq (plusHM MON 8 30, plusHM MON 8 35))))
  = 3%nat.
Proof.
  pose proof (overlapping_requests_race exNow exNow exNow emptyStore exReq
                (plusHM MON 8 30) (plusHM MON 8 35) eq_refl) as (H & _).
  exact H.
Defined.

(** ** What the listing offers and what a booking accepts *)

Lemma sorted_filter (f : Z -> bool) (l : list Z) :
  StronglySorted Z.lt l -> StronglySorted Z.lt (List.filter f l).
Proof.
  induction 1 as [|a l Hl IH Ha]; simpl; [constructor|].
  destruct (f a); [|done]. constructor; [done|].
  apply Forall_forall. intros x Hx. apply list_elem_of_In, filter_In in Hx as [Hx _].
  rewrite Forall_forall in Ha. by apply Ha, list_elem_of_In.
Qed.

Lemma sorted_least_is_head (l : list Z) (s : Z) :
  StronglySorted Z.lt l -> In s l -> (forall c, In c l -> s <= c) ->
  exists rest, l = s :: rest.
Proof.
  intros Hs Hin Hmin. destruct l as [|h rest]; [done|].
  exists rest. f_equal. destruct Hin as [->|Hin]; [done|].
  apply StronglySorted_cons in Hs as [Hh _].
  rewrite Forall_forall in Hh. apply list_elem_of_In, Hh in Hin.
  specialize (Hmin h (or_introl eq_refl)). lia.
Qed.

Lemma listing_In (now : Z) (db : Store) (date : Z) (serviceType : string)
    (details : Details) (l : list Z) (t : Z) :
  getAvailability now db (At date) serviceType details = Available l ->
  In t l ->
  isWeekend date = false
  /\ In t (map start (generateSlotsForDay (startOfDay date)))
  /\ exists duration,
       computeDuration serviceType details = Minutes duration
       /\ admissible db serviceType details duration now t = true.
Proof.
  intros Hl Hin. destruct (isWeekend date) eqn:Hwk.
  { rewrite getAvailability_weekend in Hl by done. injection Hl as <-. done. }
  destruct (computeDuration serviceType details) as [m|] eqn:Hm.
  - rewrite (getAvailability_day _ _ _ _ _ m) in Hl by done. injection Hl as <-.
    apply filter_In in Hin. split; [done|]. split; [tauto|]. exists m. tauto.
  - unfold getAvailability in Hl.
    rewrite isWeekend_startOfDay, Hwk, Hm, availableLoop_not_a_number in Hl.
    destruct (existsb _ _); [done|]. injection Hl as <-. done.
Qed.

(** X9: every start the availability listing offers can be booked explicitly
    on the same table, at whatever time the request arrives: the duration of
    the request is a number of minutes, and the booking is stored with that
    start and that duration. *)
Theorem listed_slot_can_be_booked (now now' : Z) (db : Store) (date : Z)
    (req : BookRequest) (l : list Z) (t : Z) :
  req_serviceType req <> EmptyString ->
  req_startTime req = At t ->
  getAvailability now db (At date) (req_serviceType req) (req_details req) = Available l ->
  In t l ->
  exists duration,
    computeDuration (req_serviceType req) (req_details req) = Minutes duration
    /\ postBook now' db req
       = (Booked MSG_BOOKED (lastID db + 1) t (plusMinutes t duration),
          insertRow db (req_serviceType req) (req_details req) t (plusMinutes t duration)
            now' (phoneOrNull (req_phone req)) (req_done req)).
Proof.
  intros Hne Hst Hl Hin.
  apply (listing_In _ _ _ _ _ _ _ Hl) in Hin as (_ & _ & m & Hm & Hadm).
  exists m. split; [done|].
  unfold admissible in Hadm.
  apply andb_true_iff in Hadm as [Hadm Hok]. apply andb_true_iff in Hadm as [_ Hfit].
  rewrite (postBook_explicit now' db req t m Hne Hst Hm). cbv zeta.
  by rewrite Hfit, Hok.
Qed.

Lemma listed_slot_can_be_booked_witness :
  postBook (plusHM MON 23 0) exDb1 exReq
  = (Booked MSG_BOOKED 2 (plusHM MON 8 30) (plusHM MON 8 35),
     insertRow exDb1 "chul" ∅ (plusHM MON 8 30) (plusHM MON 8 35) (plusHM MON 23 0)
       None false).
Proof.
  destruct (listed_slot_can_be_booked exNow (plusHM MON 23 0) exDb1 MON exReq
              (map start (generateSlotsForDay MON)) (plusHM MON 8 30)
              ltac:(discriminate) eq_refl eq_refl ltac:(by left))
    as (m & Hm & Hb).
  injection Hm as <-. exact Hb.
Defined.

(** X10: the slot the forward search returns is the first start that the
    availability listing of the day of that slot offers, for the same table,
    clock, service type and details. *)
Theorem auto_slot_heads_listing (db : Store) (now : Z) (serviceType : string)
    (details : Details) (fromDT : Z) (sameDayOnly : bool) (maxDays s e : Z) :
  findNextAvailableSlot db now serviceType details fromDT sameDayOnly maxDays
  = Returned (Some (s, e)) ->
  exists rest, getAvailability now db (At s) serviceType details = Available (s :: rest).
Proof.
  intros Hf.
  pose proof (search_result_inv _ _ _ _ _ _ _ _ _ Hf) as (m & Hm & _ & Hin & Hadm).
  pose proof (candidate_day _ _ _ _ Hin) as [Hwk _].
  rewrite (getAvailability_day _ _ _ _ _ m) by done.
  pose proof Hin as Hshape.
  apply candidates_In in Hshape as (day & off & Hday & Hwd & Hoff & Hs).
  assert (startOfDay s = day) as Hsod.
  { rewrite Hs, Z.add_comm. apply startOfDay_offset; [|by apply base_offset_range].
    apply horizonDays_In in Hday as (i & _ & _ & ->).
    apply plusDays_mod, startOfDay_mod. }
  rewrite Hsod.
  set (adm := admissible db serviceType details m now).
  destruct (sorted_least_is_head (List.filter adm (map start (generateSlotsForDay day))) s)
    as [rest Hrest].
  - apply sorted_filter. rewrite starts_of_day. apply sorted_shift, base_offsets_sorted.
  - apply filter_In. split; [|done]. rewrite starts_of_day, Hs. apply in_map_iff. by exists off.
  - intros c Hc. apply filter_In in Hc as [Hc Hcadm].
    rewrite (findNextAvailableSlot_spec _ _ _ _ m) in Hf by done. unfold specSearch in Hf.
    destruct (find _ _) as [s'|] eqn:Hfind; simpl in Hf; [|done].
    injection Hf as <- _.
    apply (find_sorted_first _ _ _ _ (horizon_candidates_sorted fromDT sameDayOnly maxDays)
             Hfind); [|done].
    rewrite starts_of_day in Hc. apply in_map_iff in Hc as (off' & <- & Hoff').
    apply candidates_In. by exists day, off'.
  - exists rest. by rewrite Hrest.
Qed.

Lemma auto_slot_heads_listing_witness :
  exists rest,
    getAvailability (plusHM MON 9 2) exDb2 (At (plusHM MON 9 5)) "hotzla" ∅
    = Available (plusHM MON 9 5 :: rest).
Proof.
  apply (auto_slot_heads_listing exDb2 (plusHM MON 9 2) "hotzla" ∅ (plusHM MON 9 2)
           false 30 (plusHM MON 9 5) (plusHM MON 9 20)).
  vm_compute. reflexivity.
Defined.

(** ** How bookings and cancellations move the conflict check *)

Lemma selectOverlapping_delete (db : Store) (id s e : Z) :
  selectOverlapping (snd (deleteBook db id)) s e
  = List.filter (fun r => negb (row_id r =? id)) (selectOverlapping db s e).
Proof.
  unfold selectOverlapping, deleteBook. simpl.
  induction (rows db) as [|x l IH]; simpl; [done|].
  destruct (negb (row_id x =? id)) eqn:Hx; destruct (overlaps s e x) eqn:Ho; simpl;
    rewrite ?Hx, ?Ho; simpl; by rewrite IH.
Qed.

Lemma existsb_filter_false {A : Type} (f g : A -> bool) (l : list A) :
  existsb f l = false -> existsb f (List.filter g l) = false.
Proof.
  induction l as [|a l IH]; simpl; [done|].
  intros H. apply orb_false_iff in H as [Ha Hl].
  destruct (g a); simpl; [rewrite Ha|]; by apply IH.
Qed.

(** X11: a cancellation never turns an accepted candidate into a rejected
    one, and a booking never turns a rejected candidate into an accepted one,
    whatever the candidate, its service type and its details. *)
Theorem conflict_check_monotone (db : Store) (s e : Z)
    (serviceType : string) (details : Details) :
  (forall id,
     ok (checkConflicts db s e serviceType details) = true ->
     ok (checkConflicts (snd (deleteBook db id)) s e serviceType details) = true)
  /\ (forall st d s' e' c p dn,
     ok (checkConflicts db s e serviceType details) = false ->
     ok (checkConflicts (insertRow db st d s' e' c p dn) s e serviceType details) = false).
Proof.
  split.
  - intros id. rewrite !checkConflicts_ok, !andb_true_iff, !negb_true_iff.
    intros [Hlen Hclash]. split.
    + apply Nat.ltb_lt in Hlen. apply Nat.ltb_lt. rewrite selectOverlapping_delete.
      pose proof (filter_length (fun r => negb (row_id r =? id)) (selectOverlapping db s e)).
      pose proof (List.filter_length_le (fun r => negb (row_id r =? id))
                    (selectOverlapping db s e)). lia.
    + unfold codedEntryClash in *. rewrite selectOverlapping_delete.
      destruct (isKidud (normType serviceType)); [|done].
      rewrite andb_true_l in *. by apply existsb_filter_false.
  - intros st d s' e' c p dn. rewrite !checkConflicts_ok, !andb_false_iff, !negb_false_iff.
    rewrite selectOverlapping_insert. intros [Hlen|Hclash].
    + left. apply Nat.ltb_ge in Hlen. apply Nat.ltb_ge. rewrite length_app. lia.
    + right. unfold codedEntryClash in *. rewrite selectOverlapping_insert.
      destruct (isKidud (normType serviceType)); [|done].
      rewrite andb_true_l in *. rewrite existsb_app, Hclash. done.
Qed.

(** X12: a booking request that is not answered with a booking leaves the
    table as it was; one that is answered with a booking keeps every row there
    was, in place, and adds one row at the end, which carries the id and the
    interval of the answer, the service type, details and done flag of the
    request, and its phone, an absent or empty phone being stored as null. *)
Theorem booking_only_appends (now : Z) (db : Store) (req : BookRequest) :
  match fst (postBook now db req) with
  | Booked _ id s e =>
      snd (postBook now db req)
      = mkStore (rows db ++ [mkRow id (req_serviceType req) (req_details req) s e now
                               (phoneOrNull (req_phone req)) (req_done req)]) id
      /\ id = lastID db + 1
      /\ (req_phone req = None \/ req_phone req = Some EmptyString ->
          phoneOrNull (req_phone req) = None)
      /\ (forall p, req_phone req = Some p -> p <> EmptyString ->
          phoneOrNull (req_phone req) = Some p)
  | _ => snd (postBook now db req) = db
  end.
Proof.
  destruct (postBook_cases now db req) as [[H Hnot]|(m & s & e & H & _)].
  - destruct (fst (postBook now db req)) as [msg|msg|msg|m id s e] eqn:Hf; try done.
    by specialize (Hnot m id s e).
  - rewrite H. simpl. split; [done|]. split; [done|]. split.
    + by intros [-> | ->].
    + intros p -> Hp. simpl. apply String.eqb_neq in Hp. by rewrite Hp.
Qed.

(** X13: a cancellation removes exactly the rows with the given id and keeps
    the others in their order; with an id that no row has it changes nothing
    and still answers with the success message; and cancelling the booking
    that a request has just made gives back the rows there were before it, in
    every table that a run of requests leads to. *)
Theorem cancellation_removes_one_id (db : Store) (id : Z) :
  fst (deleteBook db id) = MSG_CANCELLED
  /\ (forall r, In r (rows (snd (deleteBook db id))) <-> In r (rows db) /\ row_id r <> id)
  /\ ((forall r, In r (rows db) -> row_id r <> id) -> snd (deleteBook db id) = db)
  /\ (forall reqs now req m s e,
        db = serve reqs emptyStore ->
        fst (postBook now db req) = Booked m id s e ->
        rows (snd (deleteBook (snd (postBook now db req)) id)) = rows db).
Proof.
  assert (forall l : list Row, (forall r, In r l -> row_id r <> id) ->
            List.filter (fun r => negb (row_id r =? id)) l = l) as Hkeep.
  { induction l as [|x l IH]; intros Hl; simpl; [done|].
    assert ((row_id x =? id) = false) as ->
      by (apply Z.eqb_neq, Hl; by left).
    simpl. f_equal. apply IH. intros r Hr. apply Hl. by right. }
  split; [done|]. split; [|split].
  - intros r. unfold deleteBook. simpl. rewrite filter_In, negb_true_iff, Z.eqb_neq. done.
  - intros Hno. unfold deleteBook. simpl. rewrite Hkeep by done. by destruct db.
  - intros reqs now req m s e Hdb Hb.
    destruct (postBook_cases now db req) as [[_ Hnot]|(m' & s' & e' & Hpb & _)];
      [by apply Hnot in Hb|].
    rewrite Hpb in Hb |- *. simpl in Hb. injection Hb as _ <- _ _.
    unfold deleteBook, insertRow. simpl.
    rewrite List.filter_app. simpl. rewrite Z.eqb_refl. simpl. rewrite app_nil_r.
    apply Hkeep. intros r Hr.
    destruct (ids_bounded reqs) as (_ & _ & Hle). rewrite <- Hdb in Hle.
    specialize (Hle r Hr). lia.
Qed.

(** ** Requests that can never be booked, and where automatic bookings land *)

Lemma fits_at_most_three_hours (s e : Z) :
  fitsWithinBlock s e = true -> e - s <= 180 * MS_PER_MIN.
Proof.
  intros H. apply fitsWithinBlock_spec in H as (blk & Hblk & Hlo & Hhi).
  apply working_block_cases in Hblk as [-> | [-> | ->]];
    revert Hlo Hhi; unfold plusHM, MS_PER_HOUR, MS_PER_MIN; simpl; lia.
Qed.

(** X14: a request whose duration is longer than 180 minutes, which is a
    coded entry counting 19 units or more of one category, is never booked:
    with a start it is refused as outside the working hours, without a start
    it is refused for lack of availability, and the table stays as it was. *)
Theorem long_requests_are_never_booked (now : Z) (db : Store) (req : BookRequest) :
  isKidud (normType (req_serviceType req)) = true ->
  19 <= numS (req_details req) \/ 19 <= numA (req_details req) ->
  snd (postBook now db req) = db
  /\ (forall t, req_startTime req = At t ->
        fst (postBook now db req) = BadRequest MSG_NOT_IN_BLOCK)
  /\ (req_startTime req = Absent ->
        fst (postBook now db req) = Conflict (Some MSG_NO_AVAILABILITY)).
Proof.
  intros Hk Hunits.
  pose proof (isKidud_nonempty _ Hk) as Hne.
  pose proof (computeDuration_kidud _ (req_details req) Hk) as Hdur.
  set (duration := Z.max (Z.max (numS (req_details req) * 10)
                                (numA (req_details req) * 10)) 10) in Hdur.
  assert (180 < duration) as Hlong by (unfold duration; lia).
  assert (forall s, fitsWithinBlock s (plusMinutes s duration) = false) as Hnofit.
  { intros s. destruct (fitsWithinBlock _ _) eqn:Hfit; [|done].
    apply fits_at_most_three_hours in Hfit.
    revert Hfit. unfold plusMinutes, MS_PER_MIN. lia. }
  assert (snd (postBook now db req) = db
          /\ forall m id s e, fst (postBook now db req) <> Booked m id s e) as [Hsame Hnot].
  { destruct (postBook_cases now db req)
      as [H|(m & s & e & _ & Hfit & (d & Hd & ->) & _)]; [done|].
    assert (d = duration) as -> by congruence.
    by rewrite Hnofit in Hfit. }
  split; [done|]. split.
  - intros t Hst. rewrite (postBook_explicit now db req t duration Hne Hst Hdur). cbv zeta.
    by rewrite Hnofit.
  - intros Hst. rewrite (postBook_auto now db req Hne Hst) in Hnot |- *.
    destruct (findNextAvailableSlot _ _ _ _ _ _ _) as [[[s e]|]|] eqn:Hf; [|done|].
    + by specialize (Hnot MSG_ASSIGNED (lastID db + 1) s e).
    + rewrite (findNextAvailableSlot_spec _ _ _ _ duration) in Hf by done. done.
Qed.

Lemma long_requests_are_never_booked_witness :
  postBook exNow exDb1
    (mkBookRequest "kidud" (At (plusHM MON 8 30)) (<["anan" := JNum 19]> ∅) None false)
  = (BadRequest MSG_NOT_IN_BLOCK, exDb1).
Proof.
  pose proof (long_requests_are_never_booked exNow exDb1
    (mkBookRequest "kidud" (At (plusHM MON 8 30)) (<["anan" := JNum 19]> ∅) None false)
    eq_refl ltac:(right; vm_compute; discriminate)) as (H1 & H2 & _).
  specialize (H2 _ eq_refl). revert H1 H2.
  destruct (postBook _ _ _) as [resp db']. simpl. by intros -> ->.
Defined.

(** X15: a booking made without a start lands on a generated slot that is
    not before the clock reading of the request, not on a weekend day, and at
    most 30 days after the day of the request; for a service type that
    contains the standing entry-permit label it lands on the day of the
    request itself. *)
Theorem automatic_booking_lands (now : Z) (db db' : Store) (req : BookRequest)
    (m : string) (id s e : Z) :
  req_startTime req = Absent ->
  postBook now db req = (Booked m id s e, db') ->
  now <= s
  /\ isWeekend s = false
  /\ In s (map start (generateSlotsForDay (startOfDay s)))
  /\ startOfDay now <= startOfDay s <= plusDays (startOfDay now) 30
  /\ (includes (normType (req_serviceType req)) SAME_DAY_LABEL = true ->
      startOfDay s = startOfDay now).
Proof.
  intros Hst Hb.
  destruct (String.eqb_spec (req_serviceType req) EmptyString) as [He|Hne].
  { unfold postBook in Hb. by rewrite He in Hb. }
  rewrite (postBook_auto now db req Hne Hst) in Hb.
  destruct (findNextAvailableSlot _ _ _ _ _ _ _) as [[[s' e']|]|] eqn:Hf; [|done|done].
  injection Hb as _ _ <- <- _.
  pose proof (search_result_inv _ _ _ _ _ _ _ _ _ Hf) as (dur & _ & _ & Hin & Hadm).
  pose proof (candidate_day _ _ _ _ Hin) as (Hwk & i & Hi & Hsdo & Hday).
  pose proof (startOfDay_le s') as Hs. pose proof (startOfDay_le now) as Hn.
  assert (now <= s') as Hnow.
  { unfold admissible in Hadm. apply andb_true_iff in Hadm as [Hadm _].
    apply andb_true_iff in Hadm as [Hadm _]. apply negb_true_iff in Hadm.
    destruct (Z.eq_dec i 0) as [->|Hi0].
    - rewrite plusDays_zero in Hday.
      apply andb_false_iff in Hadm as [Hlt|Hsame]; [by apply Z.ltb_ge in Hlt|].
      unfold hasSameDay in Hsame. apply Z.eqb_neq in Hsame. done.
    - revert Hday Hs Hn. unfold plusDays. rewrite MS_PER_DAY_val. lia. }
  split; [done|]. split; [done|]. split; [|split].
  - apply candidates_In in Hin as (day & off & Hd & _ & Hoff & ->).
    assert (startOfDay (off + day) = day) as ->.
    { rewrite Z.add_comm. apply startOfDay_offset; [|by apply base_offset_range].
      apply horizonDays_In in Hd as (j & _ & _ & ->). apply plusDays_mod, startOfDay_mod. }
    rewrite starts_of_day. apply in_map_iff. by exists off.
  - rewrite Hday. unfold plusDays. rewrite MS_PER_DAY_val. lia.
  - intros Hlabel. rewrite Hday, (Hsdo Hlabel). apply plusDays_zero.
Qed.

Lemma automatic_booking_lands_witness :
  plusHM MON 23 0 <= plusHM (plusDays MON 1) 8 30
  /\ isWeekend (plusHM (plusDays MON 1) 8 30) = false.
Proof.
  pose proof (automatic_booking_lands (plusHM MON 23 0) emptyStore
    (insertRow emptyStore "chul" ∅ (plusHM (plusDays MON 1) 8 30)
       (plusHM (plusDays MON 1) 8 35) (plusHM MON 23 0) None false)
    (mkBookRequest "chul" Absent ∅ None false) MSG_ASSIGNED 1
    (plusHM (plusDays MON 1) 8 30) (plusHM (plusDays MON 1) 8 35)
    eq_refl ltac:(vm_compute; reflexivity)) as (H1 & H2 & _).
  split; [exact H1 | exact H2].
Defined.

(** ** Shape of the availability listing *)

(** X16: the availability listing is in strictly ascending order; every start
    it offers is on the five-minute grid of a working block of the requested
    day, ends with its duration, which is a number of minutes, inside that
    same block, is overlapped by at most one stored booking, and is not before
    the clock when the requested day is today. *)
Theorem listing_shape (now : Z) (db : Store) (date : Z) (serviceType : string)
    (details : Details) (l : list Z) :
  getAvailability now db (At date) serviceType details = Available l ->
  StronglySorted Z.lt l
  /\ forall t, In t l ->
       exists durationMin,
         computeDuration serviceType details = Minutes durationMin
         /\ isWeekend date = false
         /\ startOfDay t = startOfDay date
         /\ (exists blk k, In blk WORKING_BLOCKS /\ 0 <= k
              /\ t = plusMinutes (plusHM (startOfDay date) (bsH blk) (bsM blk))
                       (k * SLOT_STEP_MIN)
              /\ plusMinutes t durationMin <= plusHM (startOfDay date) (beH blk) (beM blk))
         /\ (length (selectOverlapping db t (plusMinutes t durationMin)) <= 1)%nat
         /\ (startOfDay date = startOfDay now -> now <= t).
Proof.
  intros Hl. split.
  - destruct l as [|t0 l0]; [constructor|].
    destruct (listing_In _ _ _ _ _ _ t0 Hl (or_introl eq_refl)) as (Hwk & _ & m & Hm & _).
    rewrite (getAvailability_day _ _ _ _ _ m) in Hl by done. injection Hl as Hl.
    rewrite <- Hl.
    apply sorted_filter. rewrite starts_of_day. apply sorted_shift, base_offsets_sorted.
  - intros t Hin.
    apply (listing_In _ _ _ _ _ _ _ Hl) in Hin as (Hwk & Hslot & durationMin & Hm & Hadm).
    exists durationMin. split; [done|].
    apply in_map_iff in Hslot as (sl & <- & Hsl).
    pose proof (fits_own_block (startOfDay date) durationMin sl (startOfDay_mod date)
                  ltac:(pose proof (duration_minutes serviceType details durationMin Hm)
                          as [? _]; lia) Hsl) as Hown.
    apply generateSlotsIn_In in Hsl as (blk & k & Hblk & Hk & Hs & Hle & He).
    unfold admissible in Hadm.
    apply andb_true_iff in Hadm as [Hadm Hok]. apply andb_true_iff in Hadm as [Htime Hfit].
    rewrite Hfit in Hown. symmetry in Hown. apply Z.leb_le in Hown. rewrite He in Hown.
    assert (startOfDay (start sl) = startOfDay date) as Hsod.
    { replace (start sl) with (startOfDay date + (start sl - startOfDay date)) by lia.
      apply startOfDay_offset; [apply startOfDay_mod|].
      apply working_block_cases in Hblk as [-> | [-> | ->]];
        revert Hs Hle; unfold plusMinutes, plusHM, MS_PER_DAY, MS_PER_HOUR, MS_PER_MIN,
          SLOT_STEP_MIN; simpl; lia. }
    split; [done|]. split; [done|]. split; [by exists blk, k|]. split.
    + rewrite checkConflicts_ok in Hok. apply andb_true_iff in Hok as [Hlen _].
      apply Nat.ltb_lt in Hlen. lia.
    + intros Htoday. apply negb_true_iff, andb_false_iff in Htime as [Hlt|Hsame].
      * by apply Z.ltb_ge in Hlt.
      * unfold hasSameDay in Hsame. apply Z.eqb_neq in Hsame. congruence.
Qed.

Lemma listing_shape_witness :
  StronglySorted Z.lt [plusHM MON 21 50; plusHM MON 21 55]
  /\ plusHM MON 21 46 <= plusHM MON 21 50.
Proof.
  pose proof (listing_shape (plusHM MON 21 46) exDb2 MON "chul" ∅
                [plusHM MON 21 50; plusHM MON 21 55] ltac:(vm_compute; reflexivity))
    as [Hs H].
  split; [exact Hs|].
  destruct (H (plusHM MON 21 50) (or_introl eq_refl)) as (m & _ & _ & _ & _ & _ & Hnow).
  by apply Hnow.
Defined.

(** X17: for a requested day that is not today the listing does not depend
    on the clock: it is made by the block-fit and conflict filters alone, so a
    day that is already over is listed like a day to come. *)
Theorem listing_ignores_clock_on_other_days (now now' : Z) (db : Store) (date : Z)
    (serviceType : string) (details : Details) :
  startOfDay date <> startOfDay now ->
  startOfDay date <> startOfDay now' ->
  getAvailability now db (At date) serviceType details
  = getAvailability now' db (At date) serviceType details.
Proof.
  intros Hn Hn'. destruct (isWeekend date) eqn:Hwk.
  { by rewrite !getAvailability_weekend. }
  assert (forall t, In t (map start (generateSlotsForDay (startOfDay date))) ->
            hasSameDay t now = false /\ hasSameDay t now' = false) as Hother.
  { intros t Ht.
    rewrite starts_of_day in Ht. apply in_map_iff in Ht as (off & <- & Hoff).
    assert (startOfDay (off + startOfDay date) = startOfDay date) as Hsod.
    { rewrite Z.add_comm. apply startOfDay_offset; [apply startOfDay_mod|].
      by apply base_offset_range. }
    unfold hasSameDay. rewrite Hsod. split; by apply Z.eqb_neq. }
  destruct (computeDuration serviceType details) as [m|] eqn:Hm.
  - rewrite !(getAvailability_day _ _ _ _ _ m) by done. f_equal.
    apply List.filter_ext_in. intros t Ht. destruct (Hother t Ht) as [H1 H2].
    unfold admissible. by rewrite H1, H2, !andb_false_r.
  - unfold getAvailability.
    rewrite isWeekend_startOfDay, Hwk, Hm, !availableLoop_not_a_number.
    assert (forall l, (forall t, In t l -> hasSameDay t now = false
                                          /\ hasSameDay t now' = false) ->
              existsb (reached now) l = existsb (reached now') l) as Hex.
    { induction l as [|a l IH]; intros Hl; simpl; [done|].
      destruct (Hl a (or_introl eq_refl)) as [H1 H2].
      unfold reached at 1 3. rewrite H1, H2, !andb_false_r. simpl. done. }
    by rewrite (Hex _ Hother).
Qed.

Lemma listing_ignores_clock_on_other_days_witness :
  getAvailability (plusHM (plusDays MON 2) 12 0) exDb1 (At MON) "chul" ∅
  = getAvailability (plusHM (plusDays MON (-3)) 7 0) exDb1 (At MON) "chul" ∅.
Proof.
  apply listing_ignores_clock_on_other_days; vm_compute; discriminate.
Defined.

(** X24: for a service type that names a property every object inherits, the
    availability listing of a weekend day is empty; for another day the block
    that builds the listing throws at the first slot it reaches and no answer
    is sent, which is what happens for every working day other than today. *)
Theorem listing_inherited_label (now : Z) (db : Store) (date : Z)
    (serviceType : string) (details : Details) :
  inheritedKey serviceType = true ->
  getAvailability now db (At date) serviceType details
  = (if isWeekend date then Available []
     else if existsb (reached now) (map start (generateSlotsForDay (startOfDay date)))
          then NoAnswer else Available [])
  /\ (isWeekend date = false -> startOfDay date <> startOfDay now ->
      getAvailability now db (At date) serviceType details = NoAnswer).
Proof.
  intros Hk.
  destruct (inherited_label serviceType details Hk) as (_ & _ & _ & Hdur & _).
  assert (getAvailability now db (At date) serviceType details
          = (if isWeekend date then Available []
             else if existsb (reached now)
                       (map start (generateSlotsForDay (startOfDay date)))
                  then NoAnswer else Available [])) as Heq.
  { unfold getAvailability. rewrite isWeekend_startOfDay, Hdur.
    destruct (isWeekend date); [done|].
    rewrite availableLoop_not_a_number. by destruct (existsb _ _). }
  split; [done|]. intros Hwk Hday. rewrite Heq, Hwk.
  assert (existsb (reached now) (map start (generateSlotsForDay (startOfDay date))) = true)
    as ->; [|done].
  apply existsb_exists. exists (plusHM 0 8 30 + startOfDay date). split.
  - rewrite starts_of_day. apply in_map_iff. exists (plusHM 0 8 30).
    split; [done|]. vm_compute. by left.
  - unfold reached, hasSameDay.
    rewrite Z.add_comm, startOfDay_offset
      by (apply startOfDay_mod || (vm_compute; split; congruence)).
    apply negb_true_iff, andb_false_iff. right. by apply Z.eqb_neq.
Qed.

Lemma listing_inherited_label_witness :
  getAvailability exNow emptyStore (At (plusDays MON 1)) "toString" ∅ = NoAnswer.
Proof.
  apply (listing_inherited_label exNow emptyStore (plusDays MON 1) "toString" ∅ eq_refl);
    [reflexivity | vm_compute; discriminate].
Defined.

(** ** The list of all bookings *)

Lemma insertByStart_perm (r : Row) (l : list Row) :
  Permutation (insertByStart r l) (r :: l).
Proof.
  induction l as [|x l IH]; simpl; [done|].
  destruct (row_startTime r <=? row_startTime x); [done|].
  rewrite IH. apply perm_swap.
Qed.

Lemma insertByStart_sorted (r : Row) (l : list Row) :
  StronglySorted (fun a b => row_startTime a <= row_startTime b) l ->
  StronglySorted (fun a b => row_startTime a <= row_startTime b) (insertByStart r l).
Proof.
  induction 1 as [|x l Hl IH Hx]; simpl; [repeat constructor|].
  destruct (Z.leb_spec (row_startTime r) (row_startTime x)) as [Hle|Hgt].
  - constructor; [by constructor|]. constructor; [done|].
    eapply Forall_impl; [exact Hx|]. simpl. intros y Hy. lia.
  - constructor; [done|].
    rewrite (insertByStart_perm r l). constructor; [lia|done].
Qed.

(** X18: the list of all bookings holds every row of the table exactly once
    and is in ascending order of start. *)
Theorem all_bookings_listed_in_order (db : Store) :
  Permutation (getBook db) (rows db)
  /\ StronglySorted (fun a b => row_startTime a <= row_startTime b) (getBook db).
Proof.
  unfold getBook, orderByStart. induction (rows db) as [|r l [IHp IHs]]; simpl.
  - split; constructor.
  - split.
    + rewrite insertByStart_perm. by constructor.
    + by apply insertByStart_sorted.
Qed.

(** ** The details the form sends *)

Lemma collectStep_insert (data : Details) (el : FormElement) :
  skippedName (el_name el) = false ->
  collectStep data el = <[el_name el := elementValue el]> data.
Proof.
  intros H. unfold collectStep, elementValue. unfold skippedName in H.
  apply orb_false_iff in H as [H1 H2]. rewrite H1, H2.
  destruct (String.eqb (el_type el) "checkbox"); [done|].
  by destruct (String.eqb (el_type el) "number").
Qed.

Lemma collectStep_skip (data : Details) (el : FormElement) :
  skippedName (el_name el) = true -> collectStep data el = data.
Proof.
  intros H. unfold collectStep. unfold skippedName in H.
  apply orb_true_iff in H as [H|H]; rewrite H; [done|]. by destruct (_ || _).
Qed.

Lemma collect_fold (form : list FormElement) (data : Details) (k : string) :
  fold_left collectStep form data !! k
  = if skippedName k then data !! k
    else match find (fun el => String.eqb (el_name el) k) (rev form) with
         | Some el => Some (elementValue el)
         | None => data !! k
         end.
Proof.
  revert data. induction form as [|el form IH]; intros data; simpl.
  { by destruct (skippedName k). }
  rewrite IH, find_app. simpl.
  destruct (skippedName k) eqn:Hk.
  - destruct (skippedName (el_name el)) eqn:Hel.
    + by rewrite collectStep_skip.
    + rewrite collectStep_insert by done. apply lookup_insert_ne. congruence.
  - destruct (find _ (rev form)) as [el'|]; [done|].
    destruct (String.eqb_spec (el_name el) k) as [Heq|Hne].
    + rewrite collectStep_insert by (by rewrite Heq). rewrite Heq. apply lookup_insert_eq.
    + destruct (skippedName (el_name el)) eqn:Hel.
      * by rewrite collectStep_skip.
      * rewrite collectStep_insert by done. by apply lookup_insert_ne.
Qed.

Lemma collected_details_lookup (form : list FormElement) (k : string) :
  collectDetails form !! k
  = if skippedName k then None
    else elementValue <$> find (fun el => String.eqb (el_name el) k) (rev form).
Proof.
  unfold collectDetails. rewrite collect_fold, lookup_empty.
  destruct (skippedName k); [done|]. by destruct (find _ _).
Qed.

(** X19: the details collected from a form never have a field with an empty
    name or named date, time or [__proto__] (an assignment under that name
    makes no field); every other field holds the value of the last
    element of that name in document order: its checked state for a checkbox,
    the integer read from its text (zero when there is none) for a number
    input, and its text otherwise; names that no element has are absent. *)
Theorem collected_details (form : list FormElement) (k : string) :
  collectDetails form !! k
  = if skippedName k then None
    else elementValue <$> find (fun el => String.eqb (el_name el) k) (rev form).
Proof. apply collected_details_lookup. Qed.


